(** * The backup tracker of the workbench

    A shallow embedding of
    [src/vs/workbench/contrib/backup/common/backupTracker.ts]: the class
    [BackupTracker], its seven listeners, the debounce procedure
    [backupModel] and [discardBackup], together with the part of the
    JavaScript event loop the class relies on ([setTimeout], [clearTimeout],
    promise continuations).

    The tracker's own fields ([backupsDisabledForAutoSaveables],
    [pendingBackups]) and the event loop share one [State]; every method is a
    function [State -> State].  Calls to collaborators that have an effect
    outside the tracker are appended, with the time of the call, to the
    [calls] log. *)

From Stdlib Require Import ZArith String List.
From Stdlib Require Import Floats.SpecFloat.
From stdpp Require Import gmap strings list fin_maps sorting.

Open Scope Z_scope.

(** ** Values of the host language *)

(** [URI]: the key of [pendingBackups] and the argument of most events.  Only
    the scheme is inspected by the tracker; the path stands for the remaining
    components.  [pendingBackups] is a [Map] keyed by [URI] objects: a value
    of this type stands for one key of that map, and two values are the same
    key when they are equal. *)
Record URI := { scheme : string; path : string }.

#[global] Instance URI_eq_dec : EqDecision URI.
Proof. solve_decision. Defined.

#[global] Instance URI_countable : Countable URI :=
  inj_countable' (λ u, (scheme u, path u))
                 (λ p, {| scheme := p.1; path := p.2 |})
                 (λ u, match u with Build_URI _ _ => eq_refl end).

(** A JavaScript number is an IEEE 754 binary64 value; [spec_float] is the
    Standard Library's specification of those values and [SFltb] its [<]. *)
Inductive JSValue :=
| JSUndefined
| JSNull
| JSBoolean (b : bool)
| JSNumber (x : spec_float)
| JSString (s : string).

Definition typeof (v : JSValue) : string :=
  match v with
  | JSUndefined => "undefined"
  | JSNull => "object"
  | JSBoolean _ => "boolean"
  | JSNumber _ => "number"
  | JSString _ => "string"
  end.

(** The double [1500]: mantissa [1500 * 2^42] (53 bits), exponent [-42]. *)
Definition SF1500 : spec_float := S754_finite false 6597069766656000 (-42).

(** The values of the type [number]: the doubles of IEEE 754 binary64. *)
Definition is_double (x : spec_float) : bool := valid_binary 53 1024 x.

(** [below_1500 x]: the value of the double [x] is less than 1500.  The
    value of a finite double is [± m * 2^e] with [-1074 <= e]; both sides
    are scaled by [2^1074]. *)
Definition below_1500 (x : spec_float) : Prop :=
  match x with
  | S754_nan => False
  | S754_infinity s => s = true
  | S754_zero _ => True
  | S754_finite s m e =>
      (if s then -1 else 1) * Z.pos m * 2 ^ (e + 1074) < 1500 * 2 ^ 1074
  end.

(** [ToInt32] and the bitwise [&] of two numbers holding integers. *)
Definition ToInt32 (n : Z) : Z :=
  let m := n mod 2 ^ 32 in
  if 2 ^ 31 <=? m then m - 2 ^ 32 else m.

Definition js_bitand (a b : Z) : Z := Z.land (ToInt32 a) (ToInt32 b).

(** [!n] for a number [n] that is not NaN. *)
Definition js_not_number (n : Z) : bool := n =? 0.

(** ** Collaborators *)

(** A text file or untitled editor model: an object (its reference) with a
    [resource]. *)
Record Model := { model_ref : positive; m_resource : URI }.

#[global] Instance Model_eq_dec : EqDecision Model.
Proof. solve_decision. Defined.

(** [IWorkingCopy] as the content-change handler reads it:
    [workingCopy.resource], [workingCopy.isDirty()] and
    [workingCopy.capabilities]. *)
Record IWorkingCopy := {
  wc_resource : URI;
  wc_isDirty : bool;
  wc_capabilities : Z
}.

(** [IAutoSaveConfiguration]; only [autoSaveDelay] is read. *)
Record IAutoSaveConfiguration := { autoSaveDelay : JSValue }.

(** What the services answer at a given moment.  The answers change behind
    the tracker's back (the user types, saves, closes editors). *)
Record Services := {
  model_isDirty : Model → bool;
  textFileService_models_get : URI → option Model;
  untitledTextEditorService_isDirty : URI → bool
}.

(** Calls that leave the tracker. *)
Inductive Call :=
| logService_trace (msg : string) (r : URI)
| backupFileService_discardResourceBackup (r : URI)
| model_backup (m : Model)
| textFileService_models_get_called (r : URI)
| untitledTextEditorService_createOrGet_resolve (r : URI).

#[global] Instance Call_eq_dec : EqDecision Call.
Proof. solve_decision. Defined.

(** Constants of the workbench that the tracker imports:
    [WorkingCopyCapabilities.Untitled] (a capability bit) and
    [Schemas.untitled]. *)
Class Workbench := {
  WorkingCopyCapabilities_Untitled : Z;
  Schemas_untitled : string
}.

(** ** The tracker and the event loop *)

(** The subscriptions made in [registerListeners]. *)
Inductive Listener :=
| onDidChangeContent
| onModelSaved
| onModelReverted
| onModelDisposed
| onDidCreate
| onDidDisposeModel
| onAutoSaveConfigurationChange_listener.

#[global] Instance Listener_eq_dec : EqDecision Listener.
Proof. solve_decision. Defined.

(** The only disposable kept in [pendingBackups]:
    [toDisposable(() => clearTimeout(handle))]. *)
Inductive IDisposable := toDisposable_clearTimeout (handle : positive).

#[global] Instance IDisposable_eq_dec : EqDecision IDisposable.
Proof. solve_decision. Defined.

(** A timer of the event loop set by [backupModel]: when it is due, and the
    [model] its callback has captured. *)
Record Timer := { due : Z; t_model : Model }.

Record State := {
  (* fields of BackupTracker *)
  backupsDisabledForAutoSaveables : bool;
  pendingBackups : gmap URI IDisposable;
  (* the store of the base class Disposable *)
  _store : list Listener;
  (* the event loop *)
  now : Z;
  nextHandle : positive;
  timers : gmap positive Timer;
  resolving : list URI;
  (* the collaborators *)
  services : Services;
  calls : list (Z * Call)
}.

Definition DISABLE_BACKUP_AUTO_SAVE_THRESHOLD : spec_float := SF1500.
Definition BACKUP_FROM_CONTENT_CHANGE_DELAY : Z := 1000.

Definition set_backupsDisabledForAutoSaveables (b : bool) (st : State) : State :=
  {| backupsDisabledForAutoSaveables := b;
     pendingBackups := pendingBackups st; _store := _store st; now := now st;
     nextHandle := nextHandle st; timers := timers st;
     resolving := resolving st; services := services st; calls := calls st |}.

Definition set_pendingBackups (p : gmap URI IDisposable) (st : State) : State :=
  {| backupsDisabledForAutoSaveables := backupsDisabledForAutoSaveables st;
     pendingBackups := p; _store := _store st; now := now st;
     nextHandle := nextHandle st; timers := timers st;
     resolving := resolving st; services := services st; calls := calls st |}.

Definition set_store (l : list Listener) (st : State) : State :=
  {| backupsDisabledForAutoSaveables := backupsDisabledForAutoSaveables st;
     pendingBackups := pendingBackups st; _store := l; now := now st;
     nextHandle := nextHandle st; timers := timers st;
     resolving := resolving st; services := services st; calls := calls st |}.

Definition set_now (t : Z) (st : State) : State :=
  {| backupsDisabledForAutoSaveables := backupsDisabledForAutoSaveables st;
     pendingBackups := pendingBackups st; _store := _store st; now := t;
     nextHandle := nextHandle st; timers := timers st;
     resolving := resolving st; services := services st; calls := calls st |}.

Definition set_timers (n : positive) (t : gmap positive Timer) (st : State) : State :=
  {| backupsDisabledForAutoSaveables := backupsDisabledForAutoSaveables st;
     pendingBackups := pendingBackups st; _store := _store st; now := now st;
     nextHandle := n; timers := t;
     resolving := resolving st; services := services st; calls := calls st |}.

Definition set_resolving (l : list URI) (st : State) : State :=
  {| backupsDisabledForAutoSaveables := backupsDisabledForAutoSaveables st;
     pendingBackups := pendingBackups st; _store := _store st; now := now st;
     nextHandle := nextHandle st; timers := timers st;
     resolving := l; services := services st; calls := calls st |}.

Definition set_services (s : Services) (st : State) : State :=
  {| backupsDisabledForAutoSaveables := backupsDisabledForAutoSaveables st;
     pendingBackups := pendingBackups st; _store := _store st; now := now st;
     nextHandle := nextHandle st; timers := timers st;
     resolving := resolving st; services := s; calls := calls st |}.

(** A call to a collaborator, logged with the current time. *)
Definition call (c : Call) (st : State) : State :=
  {| backupsDisabledForAutoSaveables := backupsDisabledForAutoSaveables st;
     pendingBackups := pendingBackups st; _store := _store st; now := now st;
     nextHandle := nextHandle st; timers := timers st;
     resolving := resolving st; services := services st;
     calls := calls st ++ [(now st, c)] |}.

(** *** Event loop primitives *)

(** [setTimeout(cb, delay)] where [cb] is the callback of [backupModel]
    closed over [model]: a fresh handle is returned. *)
Definition setTimeout (model : Model) (delay : Z) (st : State) : positive * State :=
  let handle := nextHandle st in
  (handle,
   set_timers (Pos.succ handle)
              (<[handle := {| due := now st + delay; t_model := model |}]> (timers st))
              st).

(** [clearTimeout(handle)]: idempotent, harmless on a fired timer. *)
Definition clearTimeout (handle : positive) (st : State) : State :=
  set_timers (nextHandle st) (delete handle (timers st)) st.

(** [dispose(d)] of [vs/base/common/lifecycle] on an optional disposable:
    [dispose(undefined)] does nothing. *)
Definition dispose (d : option IDisposable) (st : State) : State :=
  match d with
  | Some (toDisposable_clearTimeout handle) => clearTimeout handle st
  | None => st
  end.

(** ** The methods of [BackupTracker] *)

Section BackupTracker.
Context `{Workbench}.

(** [onAutoSaveConfigurationChange]; [&&] evaluates the comparison only when
    the delay is a number. *)
Definition onAutoSaveConfigurationChange
    (st : State) (configuration : IAutoSaveConfiguration) : State :=
  set_backupsDisabledForAutoSaveables
    (if String.eqb (typeof (autoSaveDelay configuration)) "number"
     then match autoSaveDelay configuration with
          | JSNumber x => SFltb x DISABLE_BACKUP_AUTO_SAVE_THRESHOLD
          | _ => false
          end
     else false)
    st.

(** [discardBackup(resource)]. *)
Definition discardBackup (st : State) (resource : URI) : State :=
  let st := call (logService_trace "[backup tracker] discarding backup" resource) st in
  (* Clear any running backup operation *)
  let st := dispose (pendingBackups st !! resource) st in
  let st := set_pendingBackups (delete resource (pendingBackups st)) st in
  (* Forward to backup file service *)
  call (backupFileService_discardResourceBackup resource) st.

(** [backupModel(model)]: the debounce procedure. *)
Definition backupModel (st : State) (model : Model) : State :=
  (* Clear any running backup operation *)
  let st := dispose (pendingBackups st !! m_resource model) st in
  let st := set_pendingBackups (delete (m_resource model) (pendingBackups st)) st in
  (* Working copy is dirty - start backup after delay *)
  if model_isDirty (services st) model then
    let st := call (logService_trace "[backup tracker] starting to backup"
                                     (m_resource model)) st in
    (* Schedule new backup *)
    let '(handle, st) := setTimeout model BACKUP_FROM_CONTENT_CHANGE_DELAY st in
    (* Keep in map for disposal as needed *)
    set_pendingBackups
      (<[m_resource model := toDisposable_clearTimeout handle]> (pendingBackups st)) st
  else st.

(** The callback handed to [setTimeout] in [backupModel]. *)
Definition backupModel_timeout (st : State) (model : Model) : State :=
  (* Clear disposable *)
  let st := set_pendingBackups (delete (m_resource model) (pendingBackups st)) st in
  (* Backup if still dirty *)
  if model_isDirty (services st) model then
    let st := call (logService_trace "[backup tracker] running backup"
                                     (m_resource model)) st in
    call (model_backup model) st
  else st.

(** [untitledTextEditorService.createOrGet({ resource }).resolve().then(model
    => this.backupModel(model))]: the continuation waits in the event loop
    until the promise settles. *)
Definition createOrGet_resolve_then (st : State) (resource : URI) : State :=
  let st := call (untitledTextEditorService_createOrGet_resolve resource) st in
  set_resolving (resolving st ++ [resource]) st.

(** [onDidChangeWorkingCopyContent(workingCopy)]. *)
Definition onDidChangeWorkingCopyContent (st : State) (workingCopy : IWorkingCopy) : State :=
  if negb (wc_isDirty workingCopy) then
    (* discard any backup and return if working copy not dirty *)
    discardBackup st (wc_resource workingCopy)
  else if backupsDisabledForAutoSaveables st
          && js_not_number (js_bitand (wc_capabilities workingCopy)
                                      WorkingCopyCapabilities_Untitled) then
    (* return if backups are disabled for auto-saveables *)
    st
  else if String.eqb (scheme (wc_resource workingCopy)) Schemas_untitled then
    (* Untitled *)
    createOrGet_resolve_then st (wc_resource workingCopy)
  else
    (* Files *)
    let st := call (textFileService_models_get_called (wc_resource workingCopy)) st in
    match textFileService_models_get (services st) (wc_resource workingCopy) with
    | Some model => backupModel st model
    | None => st
    end.

(** [onDidCreateUntitled(resource)]. *)
Definition onDidCreateUntitled (st : State) (resource : URI) : State :=
  if untitledTextEditorService_isDirty (services st) resource then
    createOrGet_resolve_then st resource
  else st.

(** *** Listeners *)

(** The events of the seven sources subscribed to in [registerListeners]. *)
Inductive Event :=
| workingCopyService_onDidChangeContent (c : IWorkingCopy)
| textFileService_models_onModelSaved (resource : URI)
| textFileService_models_onModelReverted (resource : URI)
| textFileService_models_onModelDisposed (resource : URI)
| untitledTextEditorService_onDidCreate (e : URI)
| untitledTextEditorService_onDidDisposeModel (e : URI)
| filesConfigurationService_onAutoSaveConfigurationChange (c : IAutoSaveConfiguration).

Definition listener_of (ev : Event) : Listener :=
  match ev with
  | workingCopyService_onDidChangeContent _ => onDidChangeContent
  | textFileService_models_onModelSaved _ => onModelSaved
  | textFileService_models_onModelReverted _ => onModelReverted
  | textFileService_models_onModelDisposed _ => onModelDisposed
  | untitledTextEditorService_onDidCreate _ => onDidCreate
  | untitledTextEditorService_onDidDisposeModel _ => onDidDisposeModel
  | filesConfigurationService_onAutoSaveConfigurationChange _ =>
      onAutoSaveConfigurationChange_listener
  end.

(** The arrow function each listener was registered with. *)
Definition handler (st : State) (ev : Event) : State :=
  match ev with
  | workingCopyService_onDidChangeContent c => onDidChangeWorkingCopyContent st c
  | textFileService_models_onModelSaved resource => discardBackup st resource
  | textFileService_models_onModelReverted resource => discardBackup st resource
  | textFileService_models_onModelDisposed resource => discardBackup st resource
  | untitledTextEditorService_onDidCreate e => onDidCreateUntitled st e
  | untitledTextEditorService_onDidDisposeModel e => discardBackup st e
  | filesConfigurationService_onAutoSaveConfigurationChange c =>
      onAutoSaveConfigurationChange st c
  end.

(** [registerListeners()]: every subscription goes through [this._register]. *)
Definition registerListeners (st : State) : State :=
  set_store
    (_store st ++ [onDidChangeContent; onModelSaved; onModelReverted; onModelDisposed;
                   onDidCreate; onDidDisposeModel; onAutoSaveConfigurationChange_listener])
    st.

(** The constructor, run at time [t0] with the services in state [svc]. *)
Definition BackupTracker_new (svc : Services) (t0 : Z) : State :=
  registerListeners
    {| backupsDisabledForAutoSaveables := false;
       pendingBackups := ∅;
       _store := [];
       now := t0;
       nextHandle := 1%positive;
       timers := ∅;
       resolving := [];
       services := svc;
       calls := [] |}.

(** Modelled from the spec: the base class [Disposable] of
    [vs/base/common/lifecycle] is not among the sources.  For what the class
    hands to [_register], the spec's teardown is to "unsubscribe from all
    external event sources", the subscriptions being "collected into one
    disposal list owned by the scheduler; release all on teardown".
    [BackupTracker] does not override [dispose()], and nothing but the seven
    subscriptions is ever passed to [_register]. *)
Definition Disposable_dispose (st : State) : State := set_store [] st.

(** *** The event loop *)

(** An event reaches its handler while the subscription is in place. *)
Definition deliver (st : State) (ev : Event) : State :=
  if bool_decide (listener_of ev ∈ _store st) then handler st ev else st.

(** The timer with handle [h] expires: the loop forgets it and runs its
    callback.  A cleared or already fired timer has no callback to run. *)
Definition fireTimer (st : State) (h : positive) : State :=
  match timers st !! h with
  | Some tm => backupModel_timeout (clearTimeout h st) (t_model tm)
  | None => st
  end.

(** The [i]-th pending [resolve()] promise is fulfilled with [model]. *)
Definition promiseResolved (st : State) (i : nat) (model : Model) : State :=
  match resolving st !! i with
  | Some _ => backupModel (set_resolving (delete i (resolving st)) st) model
  | None => st
  end.

(** The [i]-th pending [resolve()] promise is rejected: no continuation. *)
Definition promiseRejected (st : State) (i : nat) : State :=
  set_resolving (delete i (resolving st)) st.

(** Time passes. *)
Definition tick (st : State) (d : Z) : State := set_now (now st + d) st.

(** One turn of the event loop. *)
Inductive step : State → State → Prop :=
| step_event st ev :
    step st (deliver st ev)
| step_timer st h tm :
    timers st !! h = Some tm → due tm <= now st →
    step st (fireTimer st h)
| step_resolved st i model :
    step st (promiseResolved st i model)
| step_rejected st i :
    step st (promiseRejected st i)
| step_tick st d :
    0 <= d → step st (tick st d)
| step_services st svc :
    step st (set_services svc st)
| step_dispose st :
    step st (Disposable_dispose st).

(** The states the tracker can be in. *)
Inductive reachable : State → Prop :=
| reachable_new svc t0 : reachable (BackupTracker_new svc t0)
| reachable_step st st' : reachable st → step st st' → reachable st'.

End BackupTracker.

(** ** Notions used to state the properties *)

(** The two lines "Clear any running backup operation" that open both
    [backupModel] and [discardBackup], as one state transformer. *)
Definition clearRunning (st : State) (resource : URI) : State :=
  let st := dispose (pendingBackups st !! resource) st in
  set_pendingBackups (delete resource (pendingBackups st)) st.

(** "Schedule new backup" and "Keep in map for disposal as needed". *)
Definition scheduleNew (st : State) (model : Model) : State :=
  let st := call (logService_trace "[backup tracker] starting to backup"
                                   (m_resource model)) st in
  let '(handle, st) := setTimeout model BACKUP_FROM_CONTENT_CHANGE_DELAY st in
  set_pendingBackups
    (<[m_resource model := toDisposable_clearTimeout handle]> (pendingBackups st)) st.

(** Every entry of [pendingBackups] guards a live timer of its own resource,
    every live timer is guarded by the entry of its resource, handles are
    never reused, and no timer is due later than one delay from now. *)
Record inv (st : State) : Prop := {
  inv_pending r h :
    pendingBackups st !! r = Some (toDisposable_clearTimeout h) →
    ∃ tm, timers st !! h = Some tm ∧ m_resource (t_model tm) = r;
  inv_timer h tm :
    timers st !! h = Some tm →
    pendingBackups st !! m_resource (t_model tm) = Some (toDisposable_clearTimeout h);
  inv_fresh h tm :
    timers st !! h = Some tm → (h < nextHandle st)%positive;
  inv_due h tm :
    timers st !! h = Some tm → due tm <= now st + BACKUP_FROM_CONTENT_CHANGE_DELAY
}.

(** The entries of [pendingBackups] under the key [r], and the live timers
    whose callback is for a model of [r]. *)
Definition pendingFor (r : URI) (st : State) : list (URI * IDisposable) :=
  filter (λ e, e.1 = r) (map_to_list (pendingBackups st)).

Definition liveTimersFor (r : URI) (st : State) : list (positive * Timer) :=
  filter (λ e, m_resource (t_model e.2) = r) (map_to_list (timers st)).

(** The times at which [backup()] was called on a model of [r], and the
    number of [discardResourceBackup(r)] calls, in a log. *)
Definition backupCalls (r : URI) (l : list (Z * Call)) : list Z :=
  omap (λ e, match e.2 with
             | model_backup m => if decide (m_resource m = r) then Some e.1 else None
             | _ => None
             end) l.

Definition discardCalls (r : URI) (l : list (Z * Call)) : nat :=
  length (filter (λ e, e.2 = backupFileService_discardResourceBackup r) l).

(** Calls that look a model up or resolve one. *)
Definition resolvesModel (c : Call) : bool :=
  match c with
  | textFileService_models_get_called _ => true
  | untitledTextEditorService_createOrGet_resolve _ => true
  | _ => false
  end.

(** [extends P st st']: the log of [st'] is the log of [st] followed by
    calls that all satisfy [P]. *)
Definition extends (P : Z * Call → Prop) (st st' : State) : Prop :=
  ∃ new, calls st' = calls st ++ new ∧ Forall P new.

(** A call that is not [backup()]. *)
Definition notBackup (e : Z * Call) : Prop := ∀ m, e.2 ≠ model_backup m.

(** [backup()] is called from nowhere but the callback of a timer that has
    come due, and only on a model that is dirty at that moment. *)
Definition backupFromTimer (st : State) (e : Z * Call) : Prop :=
  ∀ m, e.2 = model_backup m →
       e.1 = now st
       ∧ model_isDirty (services st) m = true
       ∧ ∃ h tm, timers st !! h = Some tm ∧ t_model tm = m ∧ due tm <= now st.

(** [untouched r st st']: going from [st] to [st'] the entry of [r] is the
    same disposable (or still absent), the timer it guards is the same, the
    set of live timers for [r] is the same, and the flag has not moved. *)
Definition untouched (r : URI) (st st' : State) : Prop :=
  pendingBackups st' !! r = pendingBackups st !! r
  ∧ (∀ h, pendingBackups st !! r = Some (toDisposable_clearTimeout h) →
          timers st' !! h = timers st !! h)
  ∧ (∀ h tm, m_resource (t_model tm) = r →
             timers st' !! h = Some tm ↔ timers st !! h = Some tm)
  ∧ backupsDisabledForAutoSaveables st' = backupsDisabledForAutoSaveables st.

(** Turns of the event loop in which no listener is called and no promise
    settles: timers expire, time passes, the services change, the tracker
    is disposed of. *)
Inductive quiet_step : State → State → Prop :=
| quiet_timer st h tm :
    timers st !! h = Some tm → due tm <= now st →
    quiet_step st (fireTimer st h)
| quiet_tick st d :
    0 <= d → quiet_step st (tick st d)
| quiet_services st svc :
    quiet_step st (set_services svc st)
| quiet_dispose st :
    quiet_step st (Disposable_dispose st).

Definition quiet_run : State → State → Prop := rtc quiet_step.

(** *** A punctual event loop

    [advance st d] lets [d] time units pass with every timer expiring exactly
    when it is due, timers due at the same time in the order they were set. *)
Definition timer_before (a b : positive * Timer) : Prop :=
  due a.2 < due b.2 ∨ (due a.2 = due b.2 ∧ (a.1 <= b.1)%positive).

#[global] Instance timer_before_dec a b : Decision (timer_before a b).
Proof. unfold timer_before. apply _. Defined.

Definition dueTimers (t : Z) (st : State) : list (positive * Timer) :=
  merge_sort timer_before (filter (λ e, due e.2 <= t) (map_to_list (timers st))).

Definition expire (st : State) (e : positive * Timer) : State :=
  fireTimer (set_now (Z.max (now st) (due e.2)) st) e.1.

Definition advance (st : State) (d : Z) : State :=
  let t := now st + d in
  set_now t (foldl expire st (dueTimers t st)).

(** *** A small workbench to run the tracker in *)

(** The workbench of the examples: the untitled capability is the bit
    [1 << 2], the untitled scheme is ["untitled"]. *)
Definition vscode : Workbench :=
  {| WorkingCopyCapabilities_Untitled := Z.shiftl 1 2;
     Schemas_untitled := "untitled" |}.

Module Scenario.

Definition D : URI := {| scheme := "file"; path := "/src/a.ts" |}.
Definition E : URI := {| scheme := "file"; path := "/src/b.ts" |}.
Definition U : URI := {| scheme := "untitled"; path := "Untitled-1" |}.
Definition X : URI := {| scheme := "custom"; path := "/img.png" |}.

Definition modelD : Model := {| model_ref := 1; m_resource := D |}.
Definition modelE : Model := {| model_ref := 2; m_resource := E |}.
Definition modelU : Model := {| model_ref := 3; m_resource := U |}.

(** Every model is dirty; the text file service knows [D] and [E]. *)
Definition allDirty : Services :=
  {| model_isDirty := λ _, true;
     textFileService_models_get := λ r,
       if decide (r = D) then Some modelD
       else if decide (r = E) then Some modelE else None;
     untitledTextEditorService_isDirty := λ _, true |}.

(** The same registries once everything has been saved. *)
Definition allSaved : Services :=
  {| model_isDirty := λ _, false;
     textFileService_models_get := textFileService_models_get allDirty;
     untitledTextEditorService_isDirty := λ _, false |}.

Definition dirty (r : URI) (caps : Z) : IWorkingCopy :=
  {| wc_resource := r; wc_isDirty := true; wc_capabilities := caps |}.

Definition clean (r : URI) (caps : Z) : IWorkingCopy :=
  {| wc_resource := r; wc_isDirty := false; wc_capabilities := caps |}.

Definition AutoSave : Z := Z.shiftl 1 1.
Definition Untitled : Z := Z.shiftl 1 2.

Definition change (r : URI) (caps : Z) : Event :=
  workingCopyService_onDidChangeContent (dirty r caps).

(** A fresh tracker at time 0. *)
Definition s0 : State := BackupTracker_new allDirty 0.

(** [D] becomes dirty at time 0: a backup is pending, due at 1000. *)
Definition s1 : State := @deliver vscode s0 (change D AutoSave).

(** Half a delay later. *)
Definition s1' : State := tick s1 500.

(** [D] changes again at time 500. *)
Definition s2 : State := @deliver vscode s1' (change D AutoSave).

(** An auto save delay of 500 is configured while [D]'s backup is pending. *)
Definition delay500 : IAutoSaveConfiguration :=
  {| autoSaveDelay := JSNumber (S754_finite false 8796093022208000 (-44)) |}.

Definition s1_suppressed : State :=
  @deliver vscode s1' (filesConfigurationService_onAutoSaveConfigurationChange delay500).

(** The untitled [U] changes at time 0 and its model is resolved at once;
    it changes again at time 900, and this time the model is resolved only at
    time 1005, after the timer of the first change has expired. *)
Definition u1 : State := @deliver vscode s0 (change U Untitled).
Definition u2 : State := promiseResolved u1 0 modelU.
Definition u3 : State := tick u2 900.
Definition u4 : State := @deliver vscode u3 (change U Untitled).
Definition u5 : State := tick u4 100.
Definition u6 : State := fireTimer u5 1.
Definition u7 : State := tick u6 5.
Definition u8 : State := promiseResolved u7 0 modelU.

End Scenario.

(** *** Notions for the listeners as a whole *)

(** [entryUntouched r st st']: as [untouched], the flag left aside. *)
Definition entryUntouched (r : URI) (st st' : State) : Prop :=
  pendingBackups st' !! r = pendingBackups st !! r
  ∧ (∀ h, pendingBackups st !! r = Some (toDisposable_clearTimeout h) →
          timers st' !! h = timers st !! h)
  ∧ (∀ h tm, m_resource (t_model tm) = r →
             timers st' !! h = Some tm ↔ timers st !! h = Some tm).

(** A call that is not [discardResourceBackup(r)]. *)
Definition notDiscard (r : URI) (e : Z * Call) : Prop :=
  e.2 ≠ backupFileService_discardResourceBackup r.

Section Touched.
Context `{Workbench}.

(** The resource whose entry and timer a listener may change before it
    returns: the resource that is discarded, or the resource of the model
    that is handed to [backupModel]; none when the listener returns early,
    only starts resolving a model, or only sets the flag. *)
Definition touchedBy (st : State) (ev : Event) : option URI :=
  match ev with
  | workingCopyService_onDidChangeContent c =>
      if negb (wc_isDirty c) then Some (wc_resource c)
      else if backupsDisabledForAutoSaveables st
              && js_not_number (js_bitand (wc_capabilities c)
                                          WorkingCopyCapabilities_Untitled)
      then None
      else if String.eqb (scheme (wc_resource c)) Schemas_untitled then None
      else m_resource <$> textFileService_models_get (services st) (wc_resource c)
  | textFileService_models_onModelSaved r => Some r
  | textFileService_models_onModelReverted r => Some r
  | textFileService_models_onModelDisposed r => Some r
  | untitledTextEditorService_onDidCreate _ => None
  | untitledTextEditorService_onDidDisposeModel r => Some r
  | filesConfigurationService_onAutoSaveConfigurationChange _ => None
  end.

End Touched.

(** The resource a listener hands to [discardBackup], if it does. *)
Definition discardedBy (ev : Event) : option URI :=
  match ev with
  | workingCopyService_onDidChangeContent c =>
      if wc_isDirty c then None else Some (wc_resource c)
  | textFileService_models_onModelSaved r => Some r
  | textFileService_models_onModelReverted r => Some r
  | textFileService_models_onModelDisposed r => Some r
  | untitledTextEditorService_onDidDisposeModel r => Some r
  | untitledTextEditorService_onDidCreate _ => None
  | filesConfigurationService_onAutoSaveConfigurationChange _ => None
  end.

(** The subscriptions of [registerListeners], in the order they are made. *)
Definition allListeners : list Listener :=
  [onDidChangeContent; onModelSaved; onModelReverted; onModelDisposed;
   onDidCreate; onDidDisposeModel; onAutoSaveConfigurationChange_listener].

(** [restarted model h1 st st']: going from [st] to [st'] the timer [h1] has
    been cancelled for good and replaced by a fresh one for [model], due
    1000 after the time of [st], the only live timer for the resource of
    [model].  However the timers then expire, [backup()] is called on a
    model of that resource at most once and not before that time; when
    timers expire on time it is called exactly once, exactly then. *)
Definition restarted (model : Model) (h1 : positive) (st st' : State) : Prop :=
  let R := m_resource model in
  let h2 := nextHandle st in
  let t2 := now st + 1000 in
  timers st' !! h1 = None
  ∧ h2 ≠ h1
  ∧ pendingBackups st' !! R = Some (toDisposable_clearTimeout h2)
  ∧ timers st' !! h2 = Some {| due := t2; t_model := model |}
  ∧ liveTimersFor R st' = [(h2, {| due := t2; t_model := model |})]
  ∧ (∀ st'', quiet_run st' st'' →
       timers st'' !! h1 = None
       ∧ ∃ new, calls st'' = calls st' ++ new
                ∧ (length (backupCalls R new) ≤ 1)%nat
                ∧ Forall (λ t, t2 <= t) (backupCalls R new))
  ∧ (∀ d, backupCalls R (calls (advance st' d))
          = backupCalls R (calls st) ++ (if decide (1000 <= d) then [t2] else [])).

(** * Properties *)

(** ** The link between [pendingBackups] and the live timers *)

Section Invariant.
Context `{Workbench}.

Lemma backupModel_eq st model :
  backupModel st model =
  if model_isDirty (services st) model
  then scheduleNew (clearRunning st (m_resource model)) model
  else clearRunning st (m_resource model).
Proof.
  unfold backupModel, clearRunning, scheduleNew.
  destruct (pendingBackups st !! m_resource model) as [[h]|]; reflexivity.
Qed.

Lemma discardBackup_eq st resource :
  discardBackup st resource =
  call (backupFileService_discardResourceBackup resource)
       (clearRunning
          (call (logService_trace "[backup tracker] discarding backup" resource) st)
          resource).
Proof. reflexivity. Qed.

Lemma inv_call c st : inv st → inv (call c st).
Proof. intros [H1 H2 H3 H4]. split; simpl; assumption. Qed.

Lemma inv_set_store l st : inv st → inv (set_store l st).
Proof. intros [H1 H2 H3 H4]. split; simpl; assumption. Qed.

Lemma inv_set_resolving l st : inv st → inv (set_resolving l st).
Proof. intros [H1 H2 H3 H4]. split; simpl; assumption. Qed.

Lemma inv_set_services svc st : inv st → inv (set_services svc st).
Proof. intros [H1 H2 H3 H4]. split; simpl; assumption. Qed.

Lemma inv_set_flag b st : inv st → inv (set_backupsDisabledForAutoSaveables b st).
Proof. intros [H1 H2 H3 H4]. split; simpl; assumption. Qed.

Lemma inv_tick d st : 0 <= d → inv st → inv (tick st d).
Proof.
  intros Hd [H1 H2 H3 H4]. split; simpl; try assumption.
  intros h tm Hh. specialize (H4 h tm Hh). lia.
Qed.

(** After the clearing lines nothing is left for the resource: no entry and
    no live timer. *)
Lemma clearRunning_pending st r : pendingBackups (clearRunning st r) !! r = None.
Proof.
  unfold clearRunning. destruct (pendingBackups st !! r) as [[h]|]; simpl;
    apply lookup_delete_eq.
Qed.

Lemma clearRunning_pending_ne st r r' :
  r ≠ r' → pendingBackups (clearRunning st r) !! r' = pendingBackups st !! r'.
Proof.
  intros Hne. unfold clearRunning. destruct (pendingBackups st !! r) as [[h]|]; simpl;
    by rewrite lookup_delete_ne.
Qed.

Lemma clearRunning_timers st r :
  timers (clearRunning st r) =
  match pendingBackups st !! r with
  | Some (toDisposable_clearTimeout h) => delete h (timers st)
  | None => timers st
  end.
Proof. unfold clearRunning. destruct (pendingBackups st !! r) as [[h]|]; reflexivity. Qed.

Lemma clearRunning_no_timer st r h tm :
  inv st → timers (clearRunning st r) !! h = Some tm → m_resource (t_model tm) ≠ r.
Proof.
  intros Hinv. rewrite clearRunning_timers. intros Hh Hr.
  destruct (pendingBackups st !! r) as [[h0]|] eqn:Hp.
  - destruct (decide (h0 = h)) as [->|Hne].
    + by rewrite lookup_delete_eq in Hh.
    + rewrite lookup_delete_ne in Hh by done.
      apply (inv_timer _ Hinv) in Hh. rewrite Hr, Hp in Hh. congruence.
  - apply (inv_timer _ Hinv) in Hh. rewrite Hr, Hp in Hh. congruence.
Qed.

Lemma clearRunning_other st r :
  backupsDisabledForAutoSaveables (clearRunning st r) = backupsDisabledForAutoSaveables st
  ∧ _store (clearRunning st r) = _store st
  ∧ now (clearRunning st r) = now st
  ∧ nextHandle (clearRunning st r) = nextHandle st
  ∧ resolving (clearRunning st r) = resolving st
  ∧ services (clearRunning st r) = services st
  ∧ calls (clearRunning st r) = calls st.
Proof. unfold clearRunning. destruct (pendingBackups st !! r) as [[h]|]; simpl; auto 10. Qed.

Lemma inv_clearRunning st r : inv st → inv (clearRunning st r).
Proof.
  intros Hinv.
  destruct (clearRunning_other st r) as (_ & _ & Hnow & Hnext & _).
  split.
  - intros r' h Hp.
    destruct (decide (r = r')) as [->|Hne]; [by rewrite clearRunning_pending in Hp|].
    rewrite clearRunning_pending_ne in Hp by done.
    destruct (inv_pending _ Hinv _ _ Hp) as (tm & Hh & Hr).
    exists tm. split; [|done]. rewrite clearRunning_timers.
    destruct (pendingBackups st !! r) as [[h0]|] eqn:Hp0; [|done].
    rewrite lookup_delete_ne; [done|]. intros ->.
    destruct (inv_pending _ Hinv _ _ Hp0) as (tm0 & Hh0 & Hr0). congruence.
  - intros h tm Hh.
    pose proof (clearRunning_no_timer _ _ _ _ Hinv Hh) as Hne.
    rewrite clearRunning_pending_ne by done.
    apply (inv_timer _ Hinv). rewrite clearRunning_timers in Hh.
    destruct (pendingBackups st !! r) as [[h0]|]; [|done].
    by apply lookup_delete_Some in Hh as [_ ?].
  - intros h tm Hh. rewrite Hnext. apply (inv_fresh _ Hinv h tm).
    rewrite clearRunning_timers in Hh.
    destruct (pendingBackups st !! r) as [[h0]|]; [|done].
    by apply lookup_delete_Some in Hh as [_ ?].
  - intros h tm Hh. rewrite Hnow. apply (inv_due _ Hinv h tm).
    rewrite clearRunning_timers in Hh.
    destruct (pendingBackups st !! r) as [[h0]|]; [|done].
    by apply lookup_delete_Some in Hh as [_ ?].
Qed.

Lemma inv_scheduleNew st model :
  inv st → pendingBackups st !! m_resource model = None →
  (∀ h tm, timers st !! h = Some tm → m_resource (t_model tm) ≠ m_resource model) →
  inv (scheduleNew st model).
Proof.
  intros Hinv Hnone Hno. unfold scheduleNew, setTimeout. simpl. split; simpl.
  - intros r h Hp. apply lookup_insert_Some in Hp as [[<- [= <-]]|[Hne Hp]].
    + eexists. split; [apply lookup_insert_eq|done].
    + destruct (inv_pending _ Hinv _ _ Hp) as (tm & Hh & Hr).
      exists tm. split; [|done]. rewrite lookup_insert_ne; [done|].
      intros <-. apply (inv_fresh _ Hinv) in Hh. lia.
  - intros h tm Hh. apply lookup_insert_Some in Hh as [[<- <-]|[Hne Hh]]; simpl.
    + apply lookup_insert_eq.
    + rewrite lookup_insert_ne by (symmetry; eauto). by apply (inv_timer _ Hinv).
  - intros h tm Hh. apply lookup_insert_Some in Hh as [[<- <-]|[Hne Hh]].
    + lia.
    + apply (inv_fresh _ Hinv) in Hh. lia.
  - intros h tm Hh. apply lookup_insert_Some in Hh as [[<- <-]|[Hne Hh]]; simpl.
    + reflexivity.
    + by apply (inv_due _ Hinv) in Hh.
Qed.

Lemma inv_backupModel st model : inv st → inv (backupModel st model).
Proof.
  intros Hinv. rewrite backupModel_eq.
  pose proof (inv_clearRunning st (m_resource model) Hinv) as Hc.
  destruct (model_isDirty (services st) model); [|done].
  apply inv_scheduleNew; [done|apply clearRunning_pending|].
  intros h tm. by apply clearRunning_no_timer.
Qed.

Lemma inv_discardBackup st resource : inv st → inv (discardBackup st resource).
Proof.
  intros Hinv. rewrite discardBackup_eq.
  by apply inv_call, inv_clearRunning, inv_call.
Qed.

Lemma inv_createOrGet_resolve_then st resource :
  inv st → inv (createOrGet_resolve_then st resource).
Proof. intros Hinv. by apply inv_set_resolving, inv_call. Qed.

Lemma inv_onDidChangeWorkingCopyContent st wc :
  inv st → inv (onDidChangeWorkingCopyContent st wc).
Proof.
  intros Hinv. unfold onDidChangeWorkingCopyContent.
  destruct (negb (wc_isDirty wc)); [by apply inv_discardBackup|].
  destruct (_ && _); [done|].
  destruct (String.eqb _ _); [by apply inv_createOrGet_resolve_then|].
  simpl. destruct (textFileService_models_get _ _); [|by apply inv_call].
  by apply inv_backupModel, inv_call.
Qed.

Lemma inv_handler st ev : inv st → inv (handler st ev).
Proof.
  intros Hinv. destruct ev; simpl; auto using inv_discardBackup,
    inv_onDidChangeWorkingCopyContent.
  - unfold onDidCreateUntitled. destruct (untitledTextEditorService_isDirty _ _);
      [by apply inv_createOrGet_resolve_then|done].
  - by apply inv_set_flag.
Qed.

Lemma inv_fireTimer st h : inv st → inv (fireTimer st h).
Proof.
  intros Hinv. unfold fireTimer. destruct (timers st !! h) as [tm|] eqn:Hh; [|done].
  pose proof (inv_timer _ Hinv _ _ Hh) as Hp.
  assert (inv (set_pendingBackups
                 (delete (m_resource (t_model tm)) (pendingBackups (clearTimeout h st)))
                 (clearTimeout h st))) as Hinv'.
  { replace (set_pendingBackups _ _) with (clearRunning st (m_resource (t_model tm))).
    - by apply inv_clearRunning.
    - unfold clearRunning. by rewrite Hp. }
  unfold backupModel_timeout.
  destruct (model_isDirty _ _); [|done]. by apply inv_call, inv_call.
Qed.

Lemma inv_new svc t0 : inv (BackupTracker_new svc t0).
Proof. split; simpl; intros *; by rewrite ?lookup_empty. Qed.

Lemma inv_step st st' : step st st' → inv st → inv st'.
Proof.
  destruct 1; intros Hinv.
  - unfold deliver. case_bool_decide; [by apply inv_handler|done].
  - by apply inv_fireTimer.
  - unfold promiseResolved. destruct (resolving st !! i); [|done].
    by apply inv_backupModel, inv_set_resolving.
  - by apply inv_set_resolving.
  - by apply inv_tick.
  - by apply inv_set_services.
  - by apply inv_set_store.
Qed.

Lemma reachable_inv st : reachable st → inv st.
Proof. induction 1; eauto using inv_new, inv_step. Qed.


End Invariant.

(** The states of the scenario are states the tracker can be in. *)
Lemma reachable_s1 : @reachable vscode Scenario.s1.
Proof.
  unfold Scenario.s1, Scenario.s0.
  eapply reachable_step; [apply reachable_new|apply step_event].
Qed.

Lemma reachable_s1' : @reachable vscode Scenario.s1'.
Proof.
  unfold Scenario.s1'.
  eapply reachable_step; [apply reachable_s1|apply step_tick; lia].
Qed.

Lemma reachable_s2 : @reachable vscode Scenario.s2.
Proof.
  unfold Scenario.s2.
  eapply reachable_step; [apply reachable_s1'|apply step_event].
Qed.

(** ** At most one pending backup per resource *)

Section AtMostOne.
Context `{Workbench}.

Lemma filter_nil_forall {A} (P : A → Prop) `{∀ x, Decision (P x)} (l : list A) :
  filter P l = [] ↔ ∀ x, x ∈ l → ¬ P x.
Proof.
  split.
  - intros Hnil x Hx HP. by apply (filter_nil_not_elem_of P l x).
  - intros Hall. apply elem_of_nil_inv. intros x [HP Hx]%list_elem_of_filter.
    by apply (Hall x).
Qed.

(** In a duplicate-free list, a property that at most one element can have
    selects at most one element. *)
Lemma filter_unique_length {A} (P : A → Prop) `{∀ x, Decision (P x)} (l : list A) :
  NoDup l →
  (∀ x y, x ∈ l → y ∈ l → P x → P y → x = y) →
  (length (filter P l) ≤ 1)%nat.
Proof.
  induction 1 as [|a l Hnotin Hnd IH]; intros Huniq; [simpl; lia|].
  rewrite filter_cons. destruct (decide (P a)) as [Ha|Ha].
  - assert (filter P l = []) as ->; [|simpl; lia].
    apply filter_nil_forall. intros x Hx HPx.
    assert (a = x) as -> by (apply Huniq; set_solver). done.
  - apply IH. intros x y Hx Hy. apply Huniq; set_solver.
Qed.

Lemma pendingFor_length r st : (length (pendingFor r st) ≤ 1)%nat.
Proof.
  apply filter_unique_length; [apply NoDup_map_to_list|].
  intros [r1 d1] [r2 d2] H1%elem_of_map_to_list H2%elem_of_map_to_list; simpl.
  intros -> ->. congruence.
Qed.

Lemma liveTimersFor_length r st : inv st → (length (liveTimersFor r st) ≤ 1)%nat.
Proof.
  intros Hinv. apply filter_unique_length; [apply NoDup_map_to_list|].
  intros [h1 t1] [h2 t2] H1%elem_of_map_to_list H2%elem_of_map_to_list; simpl.
  intros Hr1 Hr2.
  pose proof (inv_timer _ Hinv _ _ H1) as P1.
  pose proof (inv_timer _ Hinv _ _ H2) as P2.
  rewrite Hr1 in P1. rewrite Hr2 in P2.
  assert (h1 = h2) as -> by congruence. congruence.
Qed.

Lemma liveTimersFor_nil r st :
  liveTimersFor r st = [] ↔
  ∀ h tm, timers st !! h = Some tm → m_resource (t_model tm) ≠ r.
Proof.
  unfold liveTimersFor. rewrite filter_nil_forall. split.
  - intros Hall h tm Hh. by apply (Hall (h, tm)), elem_of_map_to_list.
  - intros Hall [h tm] Hh%elem_of_map_to_list. simpl. by apply (Hall h).
Qed.

(** C1.  In every state the tracker can be in - hence after every handler
    invocation, every settled promise and every timer expiry - the map
    [pendingBackups] has at most one entry for a resource [R], that entry
    guards the only live timer for [R], and [backupModel] first cancels and
    removes the entry of its resource (leaving no entry and no live timer
    for it) and only then inserts the new one. *)
Theorem C1_at_most_one_pending_backup (st : State) (R : URI) :
  reachable st →
  ((length (pendingFor R st) ≤ 1)%nat ∧ (length (liveTimersFor R st) ≤ 1)%nat)
  ∧ (∀ h tm, timers st !! h = Some tm → m_resource (t_model tm) = R →
       pendingBackups st !! R = Some (toDisposable_clearTimeout h))
  ∧ (∀ ev, (length (pendingFor R (handler st ev)) ≤ 1)%nat
           ∧ (length (liveTimersFor R (handler st ev)) ≤ 1)%nat)
  ∧ (∀ h, (length (pendingFor R (fireTimer st h)) ≤ 1)%nat
          ∧ (length (liveTimersFor R (fireTimer st h)) ≤ 1)%nat)
  ∧ (∀ model, m_resource model = R →
       let cleared := clearRunning st R in
       pendingFor R cleared = [] ∧ liveTimersFor R cleared = []
       ∧ backupModel st model =
           (if model_isDirty (services st) model
            then scheduleNew cleared model else cleared)
       ∧ (length (pendingFor R (backupModel st model)) ≤ 1)%nat
       ∧ (length (liveTimersFor R (backupModel st model)) ≤ 1)%nat).
Proof.
  intros Hinv%reachable_inv. repeat split.
  - apply pendingFor_length.
  - by apply liveTimersFor_length.
  - intros h tm Hh <-. by apply (inv_timer _ Hinv).
  - apply pendingFor_length.
  - by apply liveTimersFor_length, inv_handler.
  - apply pendingFor_length.
  - by apply liveTimersFor_length, inv_fireTimer.
  - apply filter_nil_forall.
    intros [r d] Hrd%elem_of_map_to_list. simpl. intros ->.
    by rewrite clearRunning_pending in Hrd.
  - apply liveTimersFor_nil. intros h tm. by apply clearRunning_no_timer.
  - subst R. apply backupModel_eq.
  - apply pendingFor_length.
  - by apply liveTimersFor_length, inv_backupModel.
Qed.

End AtMostOne.

(** The theorem at the state where a backup of [D] is pending and [D]
    changes again. *)
Lemma C1_witness :
  (length (pendingFor Scenario.D Scenario.s2) ≤ 1)%nat
  ∧ (length (liveTimersFor Scenario.D Scenario.s2) ≤ 1)%nat.
Proof.
  exact (proj1 (@C1_at_most_one_pending_backup vscode Scenario.s2 Scenario.D
                  reachable_s2)).
Defined.


(** ** The auto save configuration *)

Section AutoSaveConfiguration.

(** [y <= x] excludes [x < y], for a positive finite [y] and every value of
    the double [x]. *)
Lemma SFleb_not_SFltb (M : positive) (E : Z) (x : spec_float) :
  SFleb (S754_finite false M E) x = true → SFltb x (S754_finite false M E) = false.
Proof.
  unfold SFleb, SFltb.
  destruct x as [s|[]| |[] m e]; cbv beta iota delta [SFcompare]; try done.
  rewrite (Z.compare_antisym e E).
  destruct (e ?= E) eqn:He; cbv beta iota delta [CompOpp]; try done.
  change (Pos.compare_cont Eq) with Pos.compare.
  rewrite (Pos.compare_antisym m M).
  by destruct (m ?= M)%positive.
Qed.

(** *** What [x < 1500] means for a double *)

Lemma digits2_pos_bounds (m : positive) :
  2 ^ (Z.pos (digits2_pos m) - 1) <= Z.pos m < 2 ^ Z.pos (digits2_pos m).
Proof.
  induction m as [p IH|p IH|]; cbn [digits2_pos].
  - rewrite Pos2Z.inj_succ, Z.pow_succ_r by lia.
    replace (Z.succ (Z.pos (digits2_pos p)) - 1) with (Z.succ (Z.pos (digits2_pos p) - 1)) by lia.
    rewrite Z.pow_succ_r by lia. lia.
  - rewrite Pos2Z.inj_succ, Z.pow_succ_r by lia.
    replace (Z.succ (Z.pos (digits2_pos p)) - 1) with (Z.succ (Z.pos (digits2_pos p) - 1)) by lia.
    rewrite Z.pow_succ_r by lia. lia.
  - cbn. lia.
Qed.

(** For a binary64 value the comparison [SFltb x 1500] is the comparison of
    the value of [x] with 1500. *)
Lemma SFltb_1500_below (x : spec_float) :
  is_double x = true → (SFltb x SF1500 = true ↔ below_1500 x).
Proof.
  unfold is_double, SFltb, SF1500.
  assert (1500 * 2 ^ 42 = 6597069766656000) as HM by reflexivity.
  revert HM. generalize 6597069766656000%positive. intros M HM.
  assert (0 < 2 ^ 1074) as HX by (by apply Z.pow_pos_nonneg).
  destruct x as [s|[]| |s m e]; cbv beta iota delta [SFcompare valid_binary below_1500];
    try (intros _; split; (done || tauto || discriminate)).
  unfold bounded, canonical_mantissa, fexp, emin.
  intros [Hcanon%Z.eqb_eq Hmax%Z.leb_le]%andb_true_iff.
  pose proof (digits2_pos_bounds m) as [Hlo Hhi].
  set (dg := Z.pos (digits2_pos m)) in *.
  assert (0 <= e + 1074) as Hk by lia.
  assert (0 < 2 ^ (e + 1074)) as Hpow by (by apply Z.pow_pos_nonneg).
  destruct s.
  { split; [intros _|done]. nia. }
  destruct (Z.compare_spec e (-42)) as [->|Hlt|Hgt].
  - change (Pos.compare_cont Eq m M) with (m ?= M)%positive.
    replace (2 ^ 1074) with (2 ^ 42 * 2 ^ (-42 + 1074)) by (by rewrite <- Z.pow_add_r).
    destruct (Pos.compare_spec m M) as [->|Hm|Hm]; split; try done; nia.
  - split; [intros _|done].
    assert (dg <= 53) as Hdg by lia.
    assert (2 ^ dg <= 2 ^ 53) by (apply Z.pow_le_mono_r; lia).
    assert (2 ^ 53 * 2 ^ (e + 1074) <= 2 ^ 10 * 2 ^ 1074).
    { rewrite <- !Z.pow_add_r by lia. apply Z.pow_le_mono_r; lia. }
    assert (2 ^ 10 = 1024) as H10 by reflexivity. nia.
  - split; [done|]. intros Hbad.
    assert (dg = 53) as Hdg by lia. rewrite Hdg in Hlo.
    assert (2 ^ 11 * 2 ^ 1074 <= 2 ^ (53 - 1) * 2 ^ (e + 1074)).
    { rewrite <- !Z.pow_add_r by lia. apply Z.pow_le_mono_r; lia. }
    assert (2 ^ 11 = 2048) as H11 by reflexivity. nia.
Qed.

(** C6.  After [onAutoSaveConfigurationChange] the flag
    [backupsDisabledForAutoSaveables] is true exactly when [autoSaveDelay] is
    a number strictly below 1500 - for a double, one whose value is less
    than 1500; it is false for a delay that is not a number (absent
    included) and for a number that is at least 1500.  Nothing else of the
    state changes. *)
Theorem C6_flag_iff_number_below_threshold
    (st : State) (configuration : IAutoSaveConfiguration) :
  let st' := onAutoSaveConfigurationChange st configuration in
  (backupsDisabledForAutoSaveables st' = true
   ↔ ∃ x, autoSaveDelay configuration = JSNumber x
          ∧ SFltb x DISABLE_BACKUP_AUTO_SAVE_THRESHOLD = true)
  ∧ DISABLE_BACKUP_AUTO_SAVE_THRESHOLD = SF1500
  ∧ (∀ x, autoSaveDelay configuration = JSNumber x → is_double x = true →
          (backupsDisabledForAutoSaveables st' = true ↔ below_1500 x))
  ∧ (typeof (autoSaveDelay configuration) ≠ "number" →
     backupsDisabledForAutoSaveables st' = false)
  ∧ (∀ x, autoSaveDelay configuration = JSNumber x →
          SFleb SF1500 x = true →
          backupsDisabledForAutoSaveables st' = false)
  ∧ st' = set_backupsDisabledForAutoSaveables (backupsDisabledForAutoSaveables st') st.
Proof.
  unfold onAutoSaveConfigurationChange, set_backupsDisabledForAutoSaveables,
    DISABLE_BACKUP_AUTO_SAVE_THRESHOLD.
  cbn [backupsDisabledForAutoSaveables].
  pose proof (SFleb_not_SFltb 6597069766656000 (-42)) as HT.
  change (S754_finite false 6597069766656000 (-42)) with SF1500 in HT.
  pose proof SFltb_1500_below as HV.
  revert HT HV. generalize SF1500. intros T HT HV.
  destruct (autoSaveDelay configuration) as [| | b | x | s] eqn:Hd;
    cbn [typeof String.eqb Ascii.eqb Bool.eqb andb].
  1-3, 5:
    (split; [split; [discriminate | intros (? & ? & ?); discriminate] |
     split; [reflexivity |
     split; [intros ? ?; discriminate |
     split; [reflexivity |
     split; [intros ? ?; discriminate | reflexivity]]]]]).
  split; [split | split; [reflexivity | split; [| split; [| split; [| reflexivity]]]]].
  - intros Hlt. by exists x.
  - intros (x' & Hx' & Hlt). by injection Hx' as <-.
  - intros x' [= <-]. apply HV.
  - intros Hne. by destruct Hne.
  - intros x' [= <-]. apply HT.
Qed.

End AutoSaveConfiguration.

(** The theorem at an auto save delay of 500. *)
Lemma C6_witness :
  backupsDisabledForAutoSaveables
    (onAutoSaveConfigurationChange Scenario.s1 Scenario.delay500) = true.
Proof.
  apply (C6_flag_iff_number_below_threshold Scenario.s1 Scenario.delay500).
  exists (S754_finite false 8796093022208000 (-44)). split; reflexivity.
Defined.

(** The delays 1499 and 1500 as doubles and as values. *)
Example below_1500_samples :
  is_double (S754_finite false 6592671720144896 (-42)) = true
  ∧ below_1500 (S754_finite false 6592671720144896 (-42))
  ∧ 6592671720144896 = 1499 * 2 ^ 42
  ∧ is_double SF1500 = true
  ∧ ¬ below_1500 SF1500.
Proof.
  split; [reflexivity|]. split; [|split; [reflexivity|split; [reflexivity|]]].
  - apply SFltb_1500_below; reflexivity.
  - intros Hbad%SFltb_1500_below; [discriminate|reflexivity].
Qed.

(** The flag for a few delays: 1499.5, 1500, 1500.5, 0, -1, NaN, the
    infinities, no delay, and the string "500". *)
Example autoSaveDelay_samples :
  let flag v :=
    backupsDisabledForAutoSaveables
      (onAutoSaveConfigurationChange Scenario.s0 {| autoSaveDelay := v |}) in
  flag (JSNumber (S754_finite false 6594870743400448 (-42))) = true
  ∧ flag (JSNumber SF1500) = false
  ∧ flag (JSNumber (S754_finite false 6599268789911552 (-42))) = false
  ∧ flag (JSNumber (S754_zero false)) = true
  ∧ flag (JSNumber (S754_finite true 4503599627370496 (-52))) = true
  ∧ flag (JSNumber S754_nan) = false
  ∧ flag (JSNumber (S754_infinity false)) = false
  ∧ flag (JSNumber (S754_infinity true)) = true
  ∧ flag JSUndefined = false
  ∧ flag (JSString "500") = false.
Proof. vm_compute. done. Qed.

(** ** Discarding *)

Section Discard.
Context `{Workbench}.

Lemma discardCalls_app r l1 l2 :
  discardCalls r (l1 ++ l2) = (discardCalls r l1 + discardCalls r l2)%nat.
Proof. unfold discardCalls. by rewrite filter_app, length_app. Qed.

Lemma discardBackup_calls st r :
  calls (discardBackup st r) =
  calls st ++ [(now st, logService_trace "[backup tracker] discarding backup" r);
               (now st, backupFileService_discardResourceBackup r)].
Proof.
  rewrite discardBackup_eq. cbn [call calls now].
  destruct (clearRunning_other
              (call (logService_trace "[backup tracker] discarding backup" r) st) r)
    as (_ & _ & -> & _ & _ & _ & ->).
  cbn [call calls now]. by rewrite <- app_assoc.
Qed.

Lemma discardBackup_pending st r : pendingBackups (discardBackup st r) !! r = None.
Proof. rewrite discardBackup_eq. cbn [call pendingBackups]. apply clearRunning_pending. Qed.

Lemma discardBackup_timers st r :
  timers (discardBackup st r) =
  match pendingBackups st !! r with
  | Some (toDisposable_clearTimeout h) => delete h (timers st)
  | None => timers st
  end.
Proof. rewrite discardBackup_eq. cbn [call timers]. by rewrite clearRunning_timers. Qed.

Lemma discardBackup_discardCalls st r :
  discardCalls r (calls (discardBackup st r)) = S (discardCalls r (calls st)).
Proof.
  rewrite discardBackup_calls, discardCalls_app. unfold discardCalls at 2.
  rewrite filter_cons, decide_False by done.
  rewrite filter_cons, decide_True by done. simpl. lia.
Qed.

Lemma discardBackup_discardCalls_ne st r r' :
  r' ≠ r → discardCalls r' (calls (discardBackup st r)) = discardCalls r' (calls st).
Proof.
  intros Hne. rewrite discardBackup_calls, discardCalls_app.
  unfold discardCalls at 2.
  rewrite filter_cons, decide_False by done.
  rewrite filter_cons, decide_False by (simpl; congruence). simpl. lia.
Qed.

Lemma discardBackup_cancels st r h :
  pendingBackups st !! r = Some (toDisposable_clearTimeout h) →
  timers (discardBackup st r) !! h = None.
Proof. intros Hp. rewrite discardBackup_timers, Hp. apply lookup_delete_eq. Qed.

(** C5.  Every run of [discardBackup], whether or not an entry was pending
    for the resource, calls [backupFileService.discardResourceBackup] for
    that resource exactly once (and for no other resource); a pending entry
    is gone afterwards and its timer is no longer live.  The listeners of
    model saved, reverted, disposed and of untitled model disposed each run
    [discardBackup] on the resource of the event. *)
Theorem C5_discard_always_reaches_the_backup_store (st : State) (R : URI) :
  let st' := discardBackup st R in
  discardCalls R (calls st') = S (discardCalls R (calls st))
  ∧ (∀ R', R' ≠ R → discardCalls R' (calls st') = discardCalls R' (calls st))
  ∧ calls st' =
      calls st ++ [(now st, logService_trace "[backup tracker] discarding backup" R);
                   (now st, backupFileService_discardResourceBackup R)]
  ∧ pendingBackups st' !! R = None
  ∧ (∀ h, pendingBackups st !! R = Some (toDisposable_clearTimeout h) →
          timers st' !! h = None)
  ∧ (pendingBackups st !! R = None → timers st' = timers st)
  ∧ handler st (textFileService_models_onModelSaved R) = st'
  ∧ handler st (textFileService_models_onModelReverted R) = st'
  ∧ handler st (textFileService_models_onModelDisposed R) = st'
  ∧ handler st (untitledTextEditorService_onDidDisposeModel R) = st'.
Proof.
  cbv zeta. repeat apply conj; try reflexivity.
  - apply discardBackup_discardCalls.
  - intros R' Hne. by apply discardBackup_discardCalls_ne.
  - apply discardBackup_calls.
  - apply discardBackup_pending.
  - apply discardBackup_cancels.
  - intros Hp. by rewrite discardBackup_timers, Hp.
Qed.


(** C9.  A content change of a working copy that is not dirty runs
    [discardBackup] on the copy's resource and nothing else: the entry of
    the resource is gone and its timer cancelled, the backup store is asked
    to discard, no timer is set, no promise is left pending and no model is
    looked up or resolved. *)
Theorem C9_clean_copy_is_discarded (st : State) (workingCopy : IWorkingCopy) :
  wc_isDirty workingCopy = false →
  let R := wc_resource workingCopy in
  let st' := onDidChangeWorkingCopyContent st workingCopy in
  st' = discardBackup st R
  ∧ pendingBackups st' !! R = None
  ∧ (∀ h, pendingBackups st !! R = Some (toDisposable_clearTimeout h) →
          timers st' !! h = None)
  ∧ discardCalls R (calls st') = S (discardCalls R (calls st))
  ∧ (∀ h, timers st' !! h = None ∨ timers st' !! h = timers st !! h)
  ∧ nextHandle st' = nextHandle st
  ∧ resolving st' = resolving st
  ∧ (∃ new, calls st' = calls st ++ new
            ∧ Forall (λ e, resolvesModel e.2 = false) new
            ∧ backupCalls R new = []).
Proof.
  intros Hclean R st'.
  assert (st' = discardBackup st R) as ->.
  { unfold st', onDidChangeWorkingCopyContent. by rewrite Hclean. }
  pose proof (discardBackup_discardCalls st R) as Hcount.
  pose proof (discardBackup_calls st R) as Hcalls.
  pose proof (discardBackup_pending st R) as Hpend.
  pose proof (discardBackup_cancels st R) as Hcancel.
  repeat split; try done.
  - intros h. rewrite discardBackup_timers.
    destruct (pendingBackups st !! R) as [[h0]|]; [|by right].
    destruct (decide (h0 = h)) as [->|Hne].
    + left. apply lookup_delete_eq.
    + right. by apply lookup_delete_ne.
  - rewrite discardBackup_eq. cbn [call nextHandle].
    by destruct (clearRunning_other
                   (call (logService_trace "[backup tracker] discarding backup" R) st) R)
      as (_ & _ & _ & -> & _).
  - rewrite discardBackup_eq. cbn [call resolving].
    by destruct (clearRunning_other
                   (call (logService_trace "[backup tracker] discarding backup" R) st) R)
      as (_ & _ & _ & _ & -> & _).
  - eexists. split; [apply Hcalls|]. split; [|done].
    by repeat constructor.
Qed.


(** C7.  With backups disabled for auto-saveables, a content change of a
    dirty working copy without the untitled capability returns at once: the
    state is the one before, so nothing is scheduled, and an entry pending
    for the resource stays as it was, its timer still live. *)
Theorem C7_suppressed_change_touches_nothing (st : State) (workingCopy : IWorkingCopy) :
  wc_isDirty workingCopy = true →
  backupsDisabledForAutoSaveables st = true →
  js_bitand (wc_capabilities workingCopy) WorkingCopyCapabilities_Untitled = 0 →
  let st' := onDidChangeWorkingCopyContent st workingCopy in
  st' = st
  ∧ pendingBackups st' = pendingBackups st
  ∧ timers st' = timers st
  ∧ calls st' = calls st
  ∧ ∀ h tm, pendingBackups st !! wc_resource workingCopy
              = Some (toDisposable_clearTimeout h) →
            timers st !! h = Some tm →
            pendingBackups st' !! wc_resource workingCopy
              = Some (toDisposable_clearTimeout h)
            ∧ timers st' !! h = Some tm.
Proof.
  intros Hdirty Hflag Hcap st'.
  assert (st' = st) as ->.
  { unfold st', onDidChangeWorkingCopyContent. by rewrite Hdirty, Hflag, Hcap. }
  done.
Qed.

End Discard.

(** The theorem where nothing is pending for [E], and where [D]'s backup is
    pending under handle 1. *)
Lemma C5_witness :
  timers (discardBackup Scenario.s1 Scenario.E) = timers Scenario.s1
  ∧ timers (discardBackup Scenario.s1 Scenario.D) !! 1%positive = None.
Proof.
  split.
  - apply (@C5_discard_always_reaches_the_backup_store vscode Scenario.s1 Scenario.E).
    vm_compute; reflexivity.
  - apply (@C5_discard_always_reaches_the_backup_store vscode Scenario.s1 Scenario.D).
    vm_compute; reflexivity.
Defined.

(** The theorem at a clean copy of [D] while [D]'s backup is pending. *)
Lemma C9_witness :
  @onDidChangeWorkingCopyContent vscode Scenario.s1 (Scenario.clean Scenario.D Scenario.AutoSave)
  = discardBackup Scenario.s1 Scenario.D.
Proof.
  apply (@C9_clean_copy_is_discarded vscode Scenario.s1
           (Scenario.clean Scenario.D Scenario.AutoSave)).
  vm_compute; reflexivity.
Defined.

(** The theorem at a change of [D], whose backup has been pending since
    before an auto save delay of 500 was configured. *)
Lemma C7_witness :
  @onDidChangeWorkingCopyContent vscode Scenario.s1_suppressed
    (Scenario.dirty Scenario.D Scenario.AutoSave) = Scenario.s1_suppressed
  ∧ pendingBackups Scenario.s1_suppressed !! Scenario.D
    = Some (toDisposable_clearTimeout 1).
Proof.
  split; [|vm_compute; reflexivity].
  apply (@C7_suppressed_change_touches_nothing vscode Scenario.s1_suppressed
           (Scenario.dirty Scenario.D Scenario.AutoSave));
    vm_compute; reflexivity.
Defined.

(** ** Other resources are left alone *)

Section Frame.
Context `{Workbench}.

Lemma clearRunning_timer_ne st r h tm :
  inv st → m_resource (t_model tm) ≠ r →
  timers (clearRunning st r) !! h = Some tm ↔ timers st !! h = Some tm.
Proof.
  intros Hinv Hne. rewrite clearRunning_timers.
  destruct (pendingBackups st !! r) as [[h0]|] eqn:Hp; [|done].
  rewrite lookup_delete_Some. split; [by intros [_ ?]|].
  intros Hh. split; [|done]. intros ->.
  destruct (inv_pending _ Hinv _ _ Hp) as (tm0 & Hh0 & Hr0). congruence.
Qed.

Lemma untouched_clearRunning st r r' :
  inv st → r ≠ r' → untouched r' st (clearRunning st r).
Proof.
  intros Hinv Hne. repeat split.
  - by apply clearRunning_pending_ne.
  - intros h Hp. destruct (inv_pending _ Hinv _ _ Hp) as (tm & Hh & Hr).
    rewrite Hh. apply clearRunning_timer_ne; [done|congruence|done].
  - apply clearRunning_timer_ne; [done|congruence].
  - apply clearRunning_timer_ne; [done|congruence].
  - by destruct (clearRunning_other st r) as (-> & _).
Qed.

Lemma untouched_scheduleNew st model r' :
  inv st → m_resource model ≠ r' → untouched r' st (scheduleNew st model).
Proof.
  intros Hinv Hne. unfold scheduleNew, setTimeout. repeat split; simpl.
  - by apply lookup_insert_ne.
  - intros h Hp. destruct (inv_pending _ Hinv _ _ Hp) as (tm & Hh & Hr).
    apply lookup_insert_ne. intros <-. apply (inv_fresh _ Hinv) in Hh. lia.
  - intros [[<- <-]|[_ ?]]%lookup_insert_Some; [done|done].
  - intros Hh. rewrite lookup_insert_ne; [done|].
    intros <-. apply (inv_fresh _ Hinv) in Hh. lia.
Qed.

Lemma untouched_trans r st1 st2 st3 :
  inv st1 → untouched r st1 st2 → untouched r st2 st3 → untouched r st1 st3.
Proof.
  intros Hinv (P1 & T1 & L1 & F1) (P2 & T2 & L2 & F2). repeat split.
  - congruence.
  - intros h Hp. rewrite <- (T1 h Hp). apply T2. congruence.
  - intros Hh. by apply L1, L2.
  - intros Hh. by apply L2, L1.
  - congruence.
Qed.

Lemma untouched_call r c st : untouched r st (call c st).
Proof. by repeat split. Qed.

Lemma untouched_backupModel st model r' :
  inv st → m_resource model ≠ r' → untouched r' st (backupModel st model).
Proof.
  intros Hinv Hne. rewrite backupModel_eq.
  pose proof (untouched_clearRunning st _ _ Hinv Hne) as Hc.
  destruct (model_isDirty (services st) model); [|done].
  eapply untouched_trans; [done|exact Hc|].
  apply untouched_scheduleNew; [by apply inv_clearRunning|done].
Qed.

Lemma untouched_discardBackup st r r' :
  inv st → r ≠ r' → untouched r' st (discardBackup st r).
Proof.
  intros Hinv Hne. rewrite discardBackup_eq.
  eapply untouched_trans; [done|apply untouched_call|].
  eapply untouched_trans; [by apply inv_call| |apply untouched_call].
  apply untouched_clearRunning; [by apply inv_call|done].
Qed.

(** C10.  In every state the tracker can be in, [backupModel] on a model of
    [R] and [discardBackup] of [R] leave every other resource [R'] alone:
    its entry in [pendingBackups] (present or not, and which disposable),
    the timer that entry guards, the live timers for [R'], and the flag
    [backupsDisabledForAutoSaveables]. *)
Theorem C10_other_resources_untouched (st : State) (R R' : URI) :
  reachable st → R ≠ R' →
  (∀ model, m_resource model = R → untouched R' st (backupModel st model))
  ∧ untouched R' st (discardBackup st R).
Proof.
  intros Hinv%reachable_inv Hne. split.
  - intros model <-. by apply untouched_backupModel.
  - by apply untouched_discardBackup.
Qed.

End Frame.

(** The theorem where backups are pending for both [D] and [E], and [D]
    is scheduled again or discarded. *)
Lemma C10_witness :
  let st := @deliver vscode Scenario.s1 (Scenario.change Scenario.E Scenario.AutoSave) in
  untouched Scenario.E st (backupModel st Scenario.modelD)
  ∧ untouched Scenario.E st (discardBackup st Scenario.D).
Proof.
  intros st.
  destruct (@C10_other_resources_untouched vscode st Scenario.D Scenario.E) as [Hb Hd].
  - eapply reachable_step; [apply reachable_s1|apply step_event].
  - discriminate.
  - split; [apply Hb; reflexivity|exact Hd].
Defined.

(** ** Teardown *)

Section Teardown.
Context `{Workbench}.

Lemma Disposable_dispose_fireTimer st h :
  fireTimer (Disposable_dispose st) h = Disposable_dispose (fireTimer st h).
Proof.
  unfold fireTimer, Disposable_dispose. cbn [set_store timers].
  destruct (timers st !! h) as [tm|]; [|done].
  unfold backupModel_timeout. cbn.
  by destruct (model_isDirty (services st) (t_model tm)).
Qed.

(** C2, as the code has it.  Disposing of the tracker releases the seven
    subscriptions, so that no event reaches a handler any more, and nothing
    else: [pendingBackups] and the timers are what they were.  A timer that
    was pending still expires afterwards and runs its callback as if the
    tracker had not been disposed of; no live timer remains only when none
    was pending. *)
Theorem C2_teardown_keeps_pending_backups (st : State) :
  let st' := Disposable_dispose st in
  _store st' = []
  ∧ (∀ ev, deliver st' ev = st')
  ∧ pendingBackups st' = pendingBackups st
  ∧ timers st' = timers st
  ∧ (∀ R, pendingFor R st' = pendingFor R st ∧ liveTimersFor R st' = liveTimersFor R st)
  ∧ (∀ h, fireTimer st' h = Disposable_dispose (fireTimer st h))
  ∧ (∀ h, calls (fireTimer st' h) = calls (fireTimer st h))
  ∧ (timers st' = ∅ ↔ timers st = ∅).
Proof.
  cbv zeta.
  split; [reflexivity|].
  split.
  { intros ev. unfold deliver. case_bool_decide as Hin; [|done].
    by apply elem_of_nil in Hin. }
  do 2 (split; [reflexivity|]).
  split; [done|].
  split; [apply Disposable_dispose_fireTimer|].
  split; [|done].
  intros h. by rewrite Disposable_dispose_fireTimer.
Qed.

End Teardown.

(** C2, as stated, fails: the tracker that has scheduled the backup of [D]
    is disposed of, and the timer is still live, its entry still in the map. *)
Lemma C2_counterexample :
  timers (Disposable_dispose Scenario.s1) !! 1%positive
    = Some {| due := 1000; t_model := Scenario.modelD |}
  ∧ pendingBackups (Disposable_dispose Scenario.s1) !! Scenario.D
    = Some (toDisposable_clearTimeout 1)
  ∧ ¬ (∀ st, @reachable vscode st →
             timers (Disposable_dispose st) = ∅
             ∧ pendingBackups (Disposable_dispose st) = ∅).
Proof.
  split; [vm_compute; reflexivity|]. split; [vm_compute; reflexivity|].
  intros Hall. destruct (Hall Scenario.s1 reachable_s1) as [Ht _].
  assert (timers (Disposable_dispose Scenario.s1) !! 1%positive = None) as Hnone
    by (rewrite Ht; apply lookup_empty).
  vm_compute in Hnone. discriminate.
Qed.

(** After teardown the timer of [D] expires a second later and [backup()]
    is called. *)
Example teardown_then_backup :
  backupCalls Scenario.D (calls (advance (Disposable_dispose Scenario.s1) 1000)) = [1000]
  ∧ backupCalls Scenario.D (calls (Disposable_dispose Scenario.s1)) = [].
Proof. vm_compute. done. Qed.

(** The amended statement where [D]'s backup is pending at teardown. *)
Lemma C2_witness :
  timers (Disposable_dispose Scenario.s1) = timers Scenario.s1
  ∧ pendingBackups (Disposable_dispose Scenario.s1) !! Scenario.D
    = Some (toDisposable_clearTimeout 1).
Proof.
  destruct (@C2_teardown_keeps_pending_backups vscode Scenario.s1)
    as (_ & _ & Hp & Ht & _).
  split; [exact Ht|]. rewrite Hp. vm_compute. reflexivity.
Defined.

(** ** Scheduling, and the exemption of untitled working copies *)

Section Untitled.
Context `{Workbench}.

(** What [backupModel] leaves behind for a dirty model: the entry of the
    resource guards a fresh timer, due one delay from now. *)
Lemma backupModel_schedules st model :
  model_isDirty (services st) model = true →
  pendingBackups (backupModel st model) !! m_resource model
    = Some (toDisposable_clearTimeout (nextHandle st))
  ∧ timers (backupModel st model) !! nextHandle st
    = Some {| due := now st + BACKUP_FROM_CONTENT_CHANGE_DELAY; t_model := model |}
  ∧ nextHandle (backupModel st model) = Pos.succ (nextHandle st)
  ∧ calls (backupModel st model)
    = calls st ++ [(now st, logService_trace "[backup tracker] starting to backup"
                                             (m_resource model))].
Proof.
  intros Hdirty. rewrite backupModel_eq, Hdirty.
  destruct (clearRunning_other st (m_resource model))
    as (_ & _ & Hnow & Hnext & _ & _ & Hcalls).
  unfold scheduleNew, setTimeout.
  cbn [pendingBackups timers nextHandle calls now set_pendingBackups set_timers call].
  rewrite Hnow, Hnext, Hcalls.
  repeat split; apply lookup_insert_eq.
Qed.

(** What it leaves behind for a model that is not dirty: nothing for the
    resource, and no call. *)
Lemma backupModel_clean st model :
  model_isDirty (services st) model = false →
  backupModel st model = clearRunning st (m_resource model)
  ∧ pendingBackups (backupModel st model) !! m_resource model = None
  ∧ calls (backupModel st model) = calls st.
Proof.
  intros Hclean. rewrite backupModel_eq, Hclean.
  repeat split; [apply clearRunning_pending|].
  by destruct (clearRunning_other st (m_resource model)) as (_ & _ & _ & _ & _ & _ & ->).
Qed.

(** C8.  For a dirty working copy with the untitled capability the content
    change handler pays no attention to [backupsDisabledForAutoSaveables]:
    with the flag set it does what it does with the flag cleared, that is,
    it hands the model of the resource to [backupModel].  For a resource of
    the untitled scheme the model is first resolved, and [backupModel] runs
    when the promise is fulfilled; for another scheme it runs at once on the
    model the text file service has.  [backupModel] then schedules the
    backup of a dirty model one delay ahead. *)
Theorem C8_untitled_exempt_from_suppression (st : State) (workingCopy : IWorkingCopy) :
  wc_isDirty workingCopy = true →
  js_bitand (wc_capabilities workingCopy) WorkingCopyCapabilities_Untitled ≠ 0 →
  let R := wc_resource workingCopy in
  let st' := onDidChangeWorkingCopyContent st workingCopy in
  st' = set_backupsDisabledForAutoSaveables (backupsDisabledForAutoSaveables st)
          (onDidChangeWorkingCopyContent
             (set_backupsDisabledForAutoSaveables false st) workingCopy)
  ∧ (scheme R = Schemas_untitled →
       st' = createOrGet_resolve_then st R
       ∧ resolving st' = resolving st ++ [R]
       ∧ ∀ model,
           promiseResolved st' (length (resolving st)) model
             = backupModel (call (untitledTextEditorService_createOrGet_resolve R) st) model
           ∧ (model_isDirty (services st) model = true → m_resource model = R →
              pendingBackups (promiseResolved st' (length (resolving st)) model) !! R
                = Some (toDisposable_clearTimeout (nextHandle st))
              ∧ timers (promiseResolved st' (length (resolving st)) model) !! nextHandle st
                = Some {| due := now st + BACKUP_FROM_CONTENT_CHANGE_DELAY;
                          t_model := model |}))
  ∧ (scheme R ≠ Schemas_untitled →
       ∀ model, textFileService_models_get (services st) R = Some model →
         st' = backupModel (call (textFileService_models_get_called R) st) model
         ∧ (model_isDirty (services st) model = true → m_resource model = R →
            pendingBackups st' !! R = Some (toDisposable_clearTimeout (nextHandle st))
            ∧ timers st' !! nextHandle st
              = Some {| due := now st + BACKUP_FROM_CONTENT_CHANGE_DELAY;
                        t_model := model |})).
Proof.
  intros Hdirty Hcap R st'.
  assert (js_not_number
            (js_bitand (wc_capabilities workingCopy) WorkingCopyCapabilities_Untitled)
          = false) as Hnot by (by apply Z.eqb_neq).
  assert (st' =
          if String.eqb (scheme R) Schemas_untitled
          then createOrGet_resolve_then st R
          else match textFileService_models_get (services st) R with
               | Some model =>
                   backupModel (call (textFileService_models_get_called R) st) model
               | None => call (textFileService_models_get_called R) st
               end) as Hst'.
  { unfold st', onDidChangeWorkingCopyContent.
    by rewrite Hdirty, Hnot, andb_false_r. }
  split; [|split].
  - rewrite Hst'. unfold onDidChangeWorkingCopyContent.
    rewrite Hdirty. cbn [backupsDisabledForAutoSaveables
                           set_backupsDisabledForAutoSaveables andb negb].
    fold R. destruct (String.eqb (scheme R) Schemas_untitled); [by destruct st|].
    cbn [services call set_backupsDisabledForAutoSaveables].
    destruct (textFileService_models_get (services st) R) as [model|]; [|by destruct st].
    rewrite !backupModel_eq. cbn [services call set_backupsDisabledForAutoSaveables].
    unfold scheduleNew, clearRunning, setTimeout.
    cbn [pendingBackups call set_backupsDisabledForAutoSaveables].
    destruct (pendingBackups st !! m_resource model) as [[h]|];
      destruct (model_isDirty (services st) model); by destruct st.
  - intros Heq%String.eqb_eq. rewrite Heq in Hst'. rewrite Hst'.
    split; [done|]. split; [done|]. intros model.
    assert (promiseResolved (createOrGet_resolve_then st R) (length (resolving st)) model
            = backupModel (call (untitledTextEditorService_createOrGet_resolve R) st)
                          model) as ->.
    { unfold promiseResolved, createOrGet_resolve_then.
      cbn [resolving set_resolving call].
      rewrite list_lookup_middle by done.
      replace (delete (length (resolving st)) (resolving st ++ [R])) with (resolving st).
      - by destruct st.
      - rewrite delete_middle by done. by rewrite app_nil_r. }
    split; [done|]. intros Hd <-.
    by destruct (backupModel_schedules
                   (call (untitledTextEditorService_createOrGet_resolve
                            (m_resource model)) st) model Hd) as (? & ? & _).
  - intros Hne%String.eqb_neq model Hget. rewrite Hne, Hget in Hst'. rewrite Hst'.
    split; [done|]. intros Hd <-.
    by destruct (backupModel_schedules
                   (call (textFileService_models_get_called (m_resource model)) st)
                   model Hd) as (? & ? & _).
Qed.

End Untitled.

(** The theorem at the untitled document [U], changed while an auto save
    delay of 500 keeps backups disabled for auto-saveables: once the model
    is resolved its backup is pending, due a delay after the change. *)
Lemma C8_witness :
  let st := Scenario.s1_suppressed in
  let st' := @onDidChangeWorkingCopyContent vscode st
               (Scenario.dirty Scenario.U Scenario.Untitled) in
  backupsDisabledForAutoSaveables st = true
  ∧ pendingBackups (promiseResolved st' 0 Scenario.modelU) !! Scenario.U
    = Some (toDisposable_clearTimeout 2)
  ∧ timers (promiseResolved st' 0 Scenario.modelU) !! 2%positive
    = Some {| due := 1500; t_model := Scenario.modelU |}.
Proof.
  intros st st'. split; [vm_compute; reflexivity|].
  destruct (@C8_untitled_exempt_from_suppression vscode st
              (Scenario.dirty Scenario.U Scenario.Untitled)) as (_ & Hu & _).
  - reflexivity.
  - vm_compute. discriminate.
  - destruct Hu as (_ & _ & Hm); [reflexivity|].
    destruct (Hm Scenario.modelU) as [_ Hs]. apply Hs; reflexivity.
Defined.

(** The scenario of the specification: with an auto save delay of 500 a
    change of the dirty file [D] schedules nothing new, a change of the
    untitled [U] does. *)
Example suppression_scenario :
  let st := Scenario.s1_suppressed in
  @deliver vscode st (Scenario.change Scenario.E Scenario.AutoSave) = st
  ∧ dueTimers 1500 (promiseResolved
                      (@deliver vscode st (Scenario.change Scenario.U Scenario.Untitled))
                      0 Scenario.modelU)
    = [(1%positive, {| due := 1000; t_model := Scenario.modelD |});
       (2%positive, {| due := 1500; t_model := Scenario.modelU |})].
Proof. vm_compute. done. Qed.

(** The other branch at work: a resource of another scheme for which the
    text file service has no model.  The flag is ignored all the same and the
    model is looked up; there being none, there is nothing to hand to
    [backupModel]. *)
Example untitled_capability_without_model :
  let st := Scenario.s1_suppressed in
  let st' := @deliver vscode st (Scenario.change Scenario.X Scenario.Untitled) in
  calls st' = calls st ++ [(500, textFileService_models_get_called Scenario.X)]
  ∧ pendingBackups st' !! Scenario.X = None
  ∧ dueTimers 5000 st' = dueTimers 5000 st.
Proof. vm_compute. done. Qed.

(** ** What the calls log gains *)

Section Calls.
Context `{Workbench}.

Lemma extends_refl P st st' : calls st' = calls st → extends P st st'.
Proof. intros Heq. exists []. by rewrite app_nil_r. Qed.

Lemma extends_trans P st1 st2 st3 :
  extends P st1 st2 → extends P st2 st3 → extends P st1 st3.
Proof.
  intros (n1 & E1 & F1) (n2 & E2 & F2). exists (n1 ++ n2). split.
  - by rewrite E2, E1, app_assoc.
  - by apply Forall_app.
Qed.

Lemma extends_call (P : Z * Call → Prop) c st :
  P (now st, c) → extends P st (call c st).
Proof. intros HP. exists [(now st, c)]. split; [done|]. by constructor. Qed.

Lemma extends_weaken (P Q : Z * Call → Prop) st st' :
  (∀ e, P e → Q e) → extends P st st' → extends Q st st'.
Proof. intros HPQ (new & E & F). exists new. split; [done|]. by eapply Forall_impl. Qed.

Lemma backupCalls_app r l1 l2 :
  backupCalls r (l1 ++ l2) = backupCalls r l1 ++ backupCalls r l2.
Proof. apply omap_app. Qed.

Lemma backupCalls_notBackup r l : Forall notBackup l → backupCalls r l = [].
Proof.
  induction 1 as [|[t c] l Hc _ IH]; [done|].
  unfold backupCalls in *. cbn [omap list_omap]. cbn [fst snd].
  destruct c; try (by rewrite IH). by destruct (Hc m).
Qed.

Lemma clearRunning_extends P st r : extends P st (clearRunning st r).
Proof.
  apply extends_refl.
  by destruct (clearRunning_other st r) as (_ & _ & _ & _ & _ & _ & ->).
Qed.

Lemma backupModel_extends st model : extends notBackup st (backupModel st model).
Proof.
  rewrite backupModel_eq.
  destruct (model_isDirty (services st) model); [|apply clearRunning_extends].
  eapply extends_trans; [apply clearRunning_extends|].
  unfold scheduleNew, setTimeout. by apply extends_call.
Qed.

Lemma discardBackup_extends st r : extends notBackup st (discardBackup st r).
Proof.
  exists [(now st, logService_trace "[backup tracker] discarding backup" r);
          (now st, backupFileService_discardResourceBackup r)].
  split; [apply discardBackup_calls|]. by repeat constructor.
Qed.

Lemma createOrGet_resolve_then_extends st r :
  extends notBackup st (createOrGet_resolve_then st r).
Proof. unfold createOrGet_resolve_then. by apply (extends_call notBackup). Qed.

Lemma handler_extends st ev : extends notBackup st (handler st ev).
Proof.
  destruct ev; cbn [handler]; auto using discardBackup_extends.
  - unfold onDidChangeWorkingCopyContent.
    destruct (negb _); [apply discardBackup_extends|].
    destruct (_ && _); [by apply extends_refl|].
    destruct (String.eqb _ _); [apply createOrGet_resolve_then_extends|].
    cbn [services call].
    destruct (textFileService_models_get _ _).
    + eapply extends_trans; [|apply backupModel_extends]. by apply extends_call.
    + by apply extends_call.
  - unfold onDidCreateUntitled.
    destruct (untitledTextEditorService_isDirty _ _);
      [apply createOrGet_resolve_then_extends|by apply extends_refl].
  - by apply extends_refl.
Qed.

(** The log after a timer has expired. *)
Lemma fireTimer_calls st h tm :
  timers st !! h = Some tm →
  calls (fireTimer st h) =
  calls st ++
  (if model_isDirty (services st) (t_model tm)
   then [(now st, logService_trace "[backup tracker] running backup"
                                   (m_resource (t_model tm)));
         (now st, model_backup (t_model tm))]
   else []).
Proof.
  intros Hh. unfold fireTimer, backupModel_timeout. rewrite Hh. cbn.
  destruct (model_isDirty (services st) (t_model tm)); cbn.
  - by rewrite <- app_assoc.
  - by rewrite app_nil_r.
Qed.

Lemma fireTimer_timers st h : timers (fireTimer st h) = delete h (timers st).
Proof.
  unfold fireTimer, backupModel_timeout.
  destruct (timers st !! h) as [tm|] eqn:Hh.
  - cbn. by destruct (model_isDirty (services st) (t_model tm)).
  - symmetry. by apply delete_id.
Qed.

Lemma fireTimer_pending st h tm :
  timers st !! h = Some tm →
  pendingBackups (fireTimer st h) = delete (m_resource (t_model tm)) (pendingBackups st).
Proof.
  intros Hh. unfold fireTimer, backupModel_timeout. rewrite Hh. cbn.
  by destruct (model_isDirty (services st) (t_model tm)).
Qed.

Lemma fireTimer_other st h :
  now (fireTimer st h) = now st ∧ services (fireTimer st h) = services st
  ∧ nextHandle (fireTimer st h) = nextHandle st.
Proof.
  unfold fireTimer, backupModel_timeout.
  destruct (timers st !! h) as [tm|]; [|done]. cbn.
  by destruct (model_isDirty (services st) (t_model tm)).
Qed.

Lemma step_extends st st' : step st st' → extends (backupFromTimer st) st st'.
Proof.
  assert (∀ e, notBackup e → backupFromTimer st e) as Hweak.
  { intros e Hn m Hm. by destruct (Hn m). }
  destruct 1 as [st ev|st h tm Hh Hdue|st i model|st i|st d Hd|st svc|st].
  - unfold deliver. case_bool_decide; [|by apply extends_refl].
    eapply extends_weaken; [exact Hweak|apply handler_extends].
  - eexists. split; [by apply fireTimer_calls|].
    destruct (model_isDirty (services st) (t_model tm)) eqn:Hd; [|constructor].
    apply Forall_cons. split; [by intros m|].
    apply Forall_cons. split; [|constructor].
    intros m [= <-]. repeat split; [done|]. by exists h, tm.
  - unfold promiseResolved. destruct (resolving st !! i); [|by apply extends_refl].
    eapply extends_weaken; [exact Hweak|].
    apply (backupModel_extends (set_resolving (delete i (resolving st)) st)).
  - by apply extends_refl.
  - by apply extends_refl.
  - by apply extends_refl.
  - by apply extends_refl.
Qed.

(** *** Quiet runs *)

Lemma quiet_step_step st st' : quiet_step st st' → step st st'.
Proof. destruct 1; by econstructor. Qed.

Lemma quiet_step_timers st st' h tm :
  quiet_step st st' → timers st' !! h = Some tm → timers st !! h = Some tm.
Proof.
  destruct 1 as [st h0 tm0 Hh0 Hdue| | |]; try done.
  rewrite fireTimer_timers. by intros [_ ?]%lookup_delete_Some.
Qed.

(** With no live timer for [r], a quiet run never calls [backup()] on a
    model of [r]. *)
Lemma quiet_run_no_timer r st st' :
  quiet_run st st' →
  (∀ h tm, timers st !! h = Some tm → m_resource (t_model tm) ≠ r) →
  (∀ h tm, timers st' !! h = Some tm → m_resource (t_model tm) ≠ r)
  ∧ ∃ new, calls st' = calls st ++ new ∧ backupCalls r new = [].
Proof.
  induction 1 as [st|st st1 st2 Hstep Hrun IH]; intros Hno.
  - split; [done|]. exists []. by rewrite app_nil_r.
  - assert (∀ h tm, timers st1 !! h = Some tm → m_resource (t_model tm) ≠ r) as Hno1.
    { intros h tm Hh. apply (Hno h). by eapply quiet_step_timers. }
    destruct (IH Hno1) as (Hno2 & new2 & E2 & B2). split; [done|].
    assert (∃ new1, calls st1 = calls st ++ new1 ∧ backupCalls r new1 = [])
      as (new1 & E1 & B1).
    { destruct Hstep as [st h tm Hh Hdue| | |];
        try (exists []; by rewrite app_nil_r).
      eexists. split; [by apply fireTimer_calls|].
      destruct (model_isDirty (services st) (t_model tm)); [|done].
      unfold backupCalls. cbn. rewrite decide_False; [done|]. by apply (Hno h). }
    exists (new1 ++ new2). split.
    + by rewrite E2, E1, app_assoc.
    + by rewrite backupCalls_app, B1, B2.
Qed.

(** With exactly one live timer for [r], a quiet run calls [backup()] on a
    model of [r] at most once, not before that timer is due, and not at all
    as long as the timer is live. *)
Lemma quiet_run_one_timer r st st' h2 tm2 :
  quiet_run st st' →
  timers st !! h2 = Some tm2 →
  (∀ h tm, timers st !! h = Some tm → m_resource (t_model tm) = r → h = h2) →
  ∃ new, calls st' = calls st ++ new
         ∧ (length (backupCalls r new) ≤ 1)%nat
         ∧ Forall (λ t, due tm2 <= t) (backupCalls r new)
         ∧ (timers st' !! h2 = Some tm2 → backupCalls r new = []).
Proof.
  induction 1 as [st|st st1 st2 Hstep Hrun IH]; intros Hh2 Huniq.
  - exists []. rewrite app_nil_r. repeat split; [cbn; lia|constructor].
  - destruct Hstep as [st h tm Hh Hdue|st d Hd|st svc|st].
    + destruct (decide (h = h2)) as [->|Hne].
      * (* the timer of [r] expires *)
        assert (tm = tm2) as -> by congruence.
        destruct (quiet_run_no_timer r _ _ Hrun) as (Hno & new2 & E2 & B2).
        { intros h tm. rewrite fireTimer_timers.
          intros [Hne Hh']%lookup_delete_Some Hr. apply Hne. symmetry.
          by apply Huniq with tm. }
        eexists. split; [by rewrite E2, (fireTimer_calls _ _ _ Hh), <- app_assoc|].
        rewrite backupCalls_app, B2, app_nil_r.
        assert (timers st2 !! h2 = None) as Hgone.
        { destruct (timers st2 !! h2) as [tm'|] eqn:Hh'; [|done].
          assert (timers (fireTimer st h2) !! h2 = Some tm') as Hbad.
          { clear -Hrun Hh'. induction Hrun as [|x y z Hxy Hyz IH']; [done|].
            eapply quiet_step_timers; [exact Hxy|]. by apply IH'. }
          rewrite fireTimer_timers, lookup_delete_eq in Hbad. done. }
        rewrite Hgone.
        destruct (model_isDirty (services st) (t_model tm2)); unfold backupCalls; cbn.
        -- case_decide; cbn; repeat split; try lia; try done; by repeat constructor.
        -- repeat split; try lia; try done; constructor.
      * (* another timer expires *)
        destruct IH as (new2 & E2 & L2 & F2 & P2).
        { rewrite fireTimer_timers. by rewrite lookup_delete_ne. }
        { intros h' tm'. rewrite fireTimer_timers.
          intros [_ Hh']%lookup_delete_Some. by apply Huniq. }
        eexists. split; [by rewrite E2, (fireTimer_calls _ _ _ Hh), <- app_assoc|].
        assert (backupCalls r
                  (if model_isDirty (services st) (t_model tm)
                   then [(now st, logService_trace "[backup tracker] running backup"
                                                   (m_resource (t_model tm)));
                         (now st, model_backup (t_model tm))]
                   else []) = []) as Hnone.
        { destruct (model_isDirty (services st) (t_model tm)); [|done].
          unfold backupCalls. cbn. rewrite decide_False; [done|].
          intros Hr. by apply Hne, Huniq with tm. }
        rewrite backupCalls_app, Hnone. done.
    + destruct IH as (new2 & E2 & L2 & F2 & P2); [done..|]. by exists new2.
    + destruct IH as (new2 & E2 & L2 & F2 & P2); [done..|]. by exists new2.
    + destruct IH as (new2 & E2 & L2 & F2 & P2); [done..|]. by exists new2.
Qed.

End Calls.

(** ** The punctual event loop *)

Section Punctual.

#[local] Instance timer_before_total : Total timer_before.
Proof.
  intros [h1 t1] [h2 t2]. unfold timer_before. cbn.
  destruct (Z.lt_trichotomy (due t1) (due t2)) as [?|[?|?]]; [by left; left| |by right; left].
  destruct (decide (h1 <= h2)%positive); [left|right]; right; split; lia.
Qed.

#[local] Instance timer_before_trans : Transitive timer_before.
Proof. intros [h1 t1] [h2 t2] [h3 t3]. unfold timer_before. cbn. lia. Qed.

Lemma timer_before_due a b : timer_before a b → due a.2 <= due b.2.
Proof. unfold timer_before. lia. Qed.

Lemma elem_of_dueTimers t st e :
  e ∈ dueTimers t st ↔ timers st !! e.1 = Some e.2 ∧ due e.2 <= t.
Proof.
  unfold dueTimers. rewrite merge_sort_Permutation, list_elem_of_filter.
  destruct e as [h tm]. rewrite elem_of_map_to_list. cbn. tauto.
Qed.

Lemma NoDup_dueTimers t st : NoDup (dueTimers t st).
Proof.
  unfold dueTimers. rewrite merge_sort_Permutation.
  apply NoDup_filter, NoDup_map_to_list.
Qed.

Lemma StronglySorted_dueTimers t st : StronglySorted timer_before (dueTimers t st).
Proof. apply StronglySorted_merge_sort; apply _. Qed.

(** One expiry. *)
Lemma expire_timers s e : timers (expire s e) = delete e.1 (timers s).
Proof. unfold expire. by rewrite fireTimer_timers. Qed.

Lemma expire_now s e : now (expire s e) = Z.max (now s) (due e.2).
Proof. unfold expire. by destruct (fireTimer_other (set_now (Z.max (now s) (due e.2)) s) e.1) as (-> & _). Qed.

Lemma expire_services s e : services (expire s e) = services s.
Proof. unfold expire. by destruct (fireTimer_other (set_now (Z.max (now s) (due e.2)) s) e.1) as (_ & -> & _). Qed.

Lemma expire_calls s e tm :
  timers s !! e.1 = Some tm →
  calls (expire s e) =
  calls s ++
  (if model_isDirty (services s) (t_model tm)
   then [(Z.max (now s) (due e.2),
          logService_trace "[backup tracker] running backup" (m_resource (t_model tm)));
         (Z.max (now s) (due e.2), model_backup (t_model tm))]
   else []).
Proof. intros Hh. unfold expire. by rewrite (fireTimer_calls _ _ tm). Qed.

Lemma expire_calls_none s e : timers s !! e.1 = None → calls (expire s e) = calls s.
Proof. intros Hh. unfold expire, fireTimer. cbn. by rewrite Hh. Qed.

Lemma expire_quiet s e : timers s !! e.1 = Some e.2 → quiet_run s (expire s e).
Proof.
  intros Hh. unfold expire.
  replace (Z.max (now s) (due e.2)) with (now s + (Z.max (now s) (due e.2) - now s)) by lia.
  apply (rtc_l _ _ (tick s (Z.max (now s) (due e.2) - now s))); [apply quiet_tick; lia|].
  apply rtc_once. apply (quiet_timer _ _ e.2); [exact Hh|]. cbn. lia.
Qed.

(** A sequence of expiries. *)
Lemma foldl_expire_timers_sub l : ∀ s h tm,
  timers (foldl expire s l) !! h = Some tm → timers s !! h = Some tm.
Proof.
  induction l as [|e l IH]; intros s h tm; [done|]. cbn. intros Hh%IH.
  rewrite expire_timers in Hh. by apply lookup_delete_Some in Hh as [_ ?].
Qed.

Lemma foldl_expire_timers_ne l : ∀ s h,
  (∀ e, e ∈ l → e.1 ≠ h) → timers (foldl expire s l) !! h = timers s !! h.
Proof.
  induction l as [|e l IH]; intros s h Hne; [done|]. cbn.
  rewrite IH by (intros e' He'; apply Hne; set_solver).
  rewrite expire_timers, lookup_delete_ne; [done|]. apply Hne. set_solver.
Qed.

Lemma foldl_expire_services l : ∀ s, services (foldl expire s l) = services s.
Proof. induction l as [|e l IH]; intros s; [done|]. cbn. by rewrite IH, expire_services. Qed.

Lemma foldl_expire_now_le B l : ∀ s,
  now s <= B → (∀ e, e ∈ l → due e.2 <= B) → now (foldl expire s l) <= B.
Proof.
  induction l as [|e l IH]; intros s Hs Hl; [done|]. cbn. apply IH.
  - rewrite expire_now. assert (due e.2 <= B) by (apply Hl; set_solver). lia.
  - intros e' He'. apply Hl. set_solver.
Qed.

Lemma foldl_expire_quiet l : ∀ s,
  NoDup l → (∀ e, e ∈ l → timers s !! e.1 = Some e.2) → quiet_run s (foldl expire s l).
Proof.
  induction l as [|e l IH]; intros s Hnd Hlive; [apply rtc_refl|]. cbn.
  apply NoDup_cons in Hnd as [Hnotin Hnd].
  eapply rtc_trans; [apply expire_quiet, Hlive; by left|].
  apply IH; [done|]. intros e' He'. rewrite expire_timers.
  assert (timers s !! e'.1 = Some e'.2) as Hlive' by (apply Hlive; set_solver).
  rewrite lookup_delete_ne; [done|]. intros Heq.
  assert (timers s !! e.1 = Some e.2) as Hlive0 by (apply Hlive; set_solver).
  rewrite Heq, Hlive' in Hlive0. destruct e, e'. cbn in *. congruence.
Qed.

(** The punctual loop is one of the quiet runs. *)
Lemma advance_quiet_run st d : 0 <= d → quiet_run st (advance st d).
Proof.
  intros Hd. unfold advance.
  set (l := dueTimers (now st + d) st). set (s := foldl expire st l).
  assert (now s <= now st + d) as Hnow.
  { apply foldl_expire_now_le; [lia|]. intros e He. by apply elem_of_dueTimers in He as [_ ?]. }
  eapply rtc_trans.
  - apply foldl_expire_quiet; [apply NoDup_dueTimers|].
    intros e He. by apply elem_of_dueTimers in He as [? _].
  - fold s. replace (now st + d) with (now s + (now st + d - now s)) by lia.
    apply rtc_once. apply (quiet_tick s (now st + d - now s)). lia.
Qed.

(** Expiries of timers for other resources add no [backup()] for [r]. *)
Lemma foldl_expire_skip r l : ∀ s,
  (∀ e tm, e ∈ l → timers s !! e.1 = Some tm → m_resource (t_model tm) ≠ r) →
  backupCalls r (calls (foldl expire s l)) = backupCalls r (calls s).
Proof.
  induction l as [|e l IH]; intros s Hne; [done|]. cbn. rewrite IH.
  - destruct (timers s !! e.1) as [tm|] eqn:Hh; [|by rewrite expire_calls_none].
    rewrite (expire_calls _ _ tm Hh), backupCalls_app.
    destruct (model_isDirty (services s) (t_model tm)); [|by rewrite app_nil_r].
    unfold backupCalls at 2. cbn. rewrite decide_False; [by rewrite app_nil_r|].
    apply (Hne e); [set_solver|done].
  - intros e' tm He'. rewrite expire_timers. intros [_ Hh]%lookup_delete_Some.
    apply (Hne e'); [set_solver|done].
Qed.

(** With one live timer for [r], not yet due, the punctual loop calls
    [backup()] for [r] exactly when that timer is due, if the model is dirty
    then, and not before. *)
Lemma advance_backup_when_due r st d h2 tm2 :
  timers st !! h2 = Some tm2 →
  m_resource (t_model tm2) = r →
  (∀ h tm, timers st !! h = Some tm → m_resource (t_model tm) = r → h = h2) →
  now st <= due tm2 →
  backupCalls r (calls (advance st d)) =
  backupCalls r (calls st) ++
  (if decide (due tm2 <= now st + d)
   then if model_isDirty (services st) (t_model tm2) then [due tm2] else []
   else []).
Proof.
  intros Hh2 Hr Huniq Hnow. unfold advance. cbn [calls set_now].
  set (t := now st + d). set (l := dueTimers t st).
  assert (∀ e tm, e ∈ l → e.1 ≠ h2 → timers st !! e.1 = Some tm →
                  m_resource (t_model tm) ≠ r) as Hother.
  { intros e tm _ Hne Hh Hr'. by apply Hne, Huniq with tm. }
  case_decide as Hdue.
  - assert ((h2, tm2) ∈ l) as Hin by (by apply elem_of_dueTimers).
    apply list_elem_of_split in Hin as (l1 & l2 & Hl).
    pose proof (NoDup_dueTimers t st) as Hnd. fold l in Hnd. rewrite Hl in Hnd.
    pose proof (StronglySorted_dueTimers t st) as Hsort. fold l in Hsort. rewrite Hl in Hsort.
    assert (∀ e, e ∈ l1 ++ (h2, tm2) :: l2 → timers st !! e.1 = Some e.2) as Hlive.
    { intros e He. rewrite <- Hl in He. by apply elem_of_dueTimers in He as [? _]. }
    assert (∀ e, e ∈ l1 ++ l2 → e.1 ≠ h2) as Hne.
    { intros e He Heq.
      assert (e = (h2, tm2)) as ->.
      { assert (timers st !! e.1 = Some e.2) as He2.
        { apply Hlive. rewrite elem_of_app in He. rewrite elem_of_app, elem_of_cons. tauto. }
        rewrite Heq, Hh2 in He2. destruct e. cbn in *. congruence. }
      apply NoDup_app in Hnd as (_ & Hdisj & Hnd2).
      apply NoDup_cons in Hnd2 as [Hnotin _].
      apply elem_of_app in He as [He|He]; [|done].
      apply (Hdisj _ He). set_solver. }
    rewrite Hl, foldl_app. cbn [foldl].
    set (s1 := foldl expire st l1).
    assert (backupCalls r (calls s1) = backupCalls r (calls st)) as Hc1.
    { apply foldl_expire_skip. intros e tm He. apply Hother.
      - rewrite Hl. set_solver.
      - apply Hne. set_solver. }
    assert (now s1 <= due tm2) as Hn1.
    { apply foldl_expire_now_le; [done|]. intros e He.
      apply (timer_before_due e (h2, tm2)).
      apply (StronglySorted_app_1_elem_of _ _ _ _ _ Hsort He). set_solver. }
    assert (timers s1 !! h2 = Some tm2) as Hh1.
    { unfold s1. rewrite foldl_expire_timers_ne; [done|].
      intros e He. apply Hne. set_solver. }
    assert (services s1 = services st) as Hs1 by apply foldl_expire_services.
    rewrite foldl_expire_skip.
    + rewrite (expire_calls s1 (h2, tm2) tm2 Hh1), backupCalls_app, Hc1, Hs1.
      destruct (model_isDirty (services st) (t_model tm2)); [|done].
      unfold backupCalls at 2. cbn. rewrite decide_True by done.
      by replace (Z.max (now s1) (due tm2)) with (due tm2) by lia.
    + intros e tm He. rewrite expire_timers. intros [_ Hh]%lookup_delete_Some.
      apply foldl_expire_timers_sub in Hh. apply (Hother e tm); [|apply Hne|done].
      * rewrite Hl. set_solver.
      * set_solver.
  - rewrite app_nil_r. apply foldl_expire_skip.
    intros e tm He Hh. apply (Hother e tm He); [|done]. intros Heq.
    apply elem_of_dueTimers in He as [Hlive Hdue']. rewrite Heq, Hh2 in Hlive.
    assert (e.2 = tm2) as Heq2 by congruence. rewrite Heq2 in Hdue'. done.
Qed.

End Punctual.

(** ** The debounce *)

Section Debounce.
Context `{Workbench}.

Lemma quiet_run_timers st st' h tm :
  quiet_run st st' → timers st' !! h = Some tm → timers st !! h = Some tm.
Proof.
  induction 1 as [|x y z Hxy Hyz IH]; [done|].
  intros Hh. eapply quiet_step_timers; [exact Hxy|]. by apply IH.
Qed.

Lemma quiet_run_timers_None st st' h :
  quiet_run st st' → timers st !! h = None → timers st' !! h = None.
Proof.
  intros Hrun Hnone. destruct (timers st' !! h) as [tm|] eqn:Hh; [|done].
  apply (quiet_run_timers _ _ _ _ Hrun) in Hh. congruence.
Qed.

Lemma filter_unique_singleton {A} (P : A → Prop) `{∀ x, Decision (P x)}
    (l : list A) (x : A) :
  NoDup l → x ∈ l → P x →
  (∀ y, y ∈ l → P y → y = x) →
  filter P l = [x].
Proof.
  intros Hnd Hx HPx Huniq.
  assert (x ∈ filter P l) as Hin by (by apply list_elem_of_filter).
  assert (length (filter P l) ≤ 1)%nat as Hlen.
  { apply filter_unique_length; [done|]. intros a b Ha Hb HPa HPb.
    rewrite (Huniq a), (Huniq b); done. }
  destruct (filter P l) as [|a [|b l']]; cbn in Hlen; [|by apply list_elem_of_singleton in Hin as ->|lia].
  by apply elem_of_nil in Hin.
Qed.

(** The live timers for the resource of a dirty model, after [backupModel]:
    the one just set. *)
Lemma backupModel_liveTimersFor st model :
  inv st → model_isDirty (services st) model = true →
  liveTimersFor (m_resource model) (backupModel st model)
  = [(nextHandle st,
      {| due := now st + BACKUP_FROM_CONTENT_CHANGE_DELAY; t_model := model |})]
  ∧ ∀ h tm, timers (backupModel st model) !! h = Some tm →
            m_resource (t_model tm) = m_resource model → h = nextHandle st.
Proof.
  intros Hinv Hdirty.
  destruct (backupModel_schedules st model Hdirty) as (Hp & Ht & _).
  pose proof (inv_backupModel st model Hinv) as Hinv'.
  assert (∀ h tm, timers (backupModel st model) !! h = Some tm →
                  m_resource (t_model tm) = m_resource model → h = nextHandle st) as Huniq.
  { intros h tm Hh Hr. apply (inv_timer _ Hinv') in Hh. rewrite Hr, Hp in Hh. congruence. }
  split; [|done].
  apply filter_unique_singleton; [apply NoDup_map_to_list|by apply elem_of_map_to_list|done|].
  intros [h tm] Hh%elem_of_map_to_list Hr. cbn in Hr.
  assert (h = nextHandle st) as -> by (by apply Huniq with tm). congruence.
Qed.

(** [backupModel] on a dirty model while a backup of its resource is
    pending: the delay starts again. *)
Lemma backupModel_restarted st model h1 tm1 :
  inv st →
  pendingBackups st !! m_resource model = Some (toDisposable_clearTimeout h1) →
  timers st !! h1 = Some tm1 →
  model_isDirty (services st) model = true →
  restarted model h1 st (backupModel st model).
Proof.
  intros Hinv Hp1 Hh1 Hdirty.
  destruct (backupModel_schedules st model Hdirty) as (Hp & Ht & _ & Hcalls).
  destruct (backupModel_liveTimersFor st model Hinv Hdirty) as (Hlive & Huniq).
  assert (nextHandle st ≠ h1) as Hne.
  { intros Heq. apply (inv_fresh _ Hinv) in Hh1. lia. }
  assert (timers (backupModel st model) !! h1 = None) as Hgone.
  { rewrite backupModel_eq, Hdirty. unfold scheduleNew, setTimeout.
    cbn [timers set_pendingBackups set_timers call nextHandle].
    destruct (clearRunning_other st (m_resource model)) as (_ & _ & _ & -> & _).
    rewrite lookup_insert_ne by done. rewrite clearRunning_timers, Hp1.
    apply lookup_delete_eq. }
  assert (services (backupModel st model) = services st
          ∧ now (backupModel st model) = now st) as [Hsvc Hnow].
  { rewrite backupModel_eq, Hdirty. unfold scheduleNew, setTimeout.
    cbn [services now set_pendingBackups set_timers call].
    by destruct (clearRunning_other st (m_resource model))
      as (_ & _ & -> & _ & _ & -> & _). }
  unfold restarted. cbv zeta.
  split; [done|]. split; [done|]. split; [done|]. split; [done|]. split; [done|].
  split.
  - intros st'' Hrun. split; [by apply (quiet_run_timers_None (backupModel st model))|].
    destruct (quiet_run_one_timer (m_resource model) _ _ (nextHandle st) _ Hrun Ht Huniq)
      as (new & E & L & F & _).
    by exists new.
  - intros d.
    rewrite (advance_backup_when_due (m_resource model) (backupModel st model) d
               (nextHandle st) _ Ht eq_refl Huniq).
    + cbn [due t_model]. rewrite Hsvc, Hnow, Hdirty, Hcalls, backupCalls_app.
      unfold backupCalls at 2. cbn. rewrite app_nil_r.
      unfold BACKUP_FROM_CONTENT_CHANGE_DELAY.
      destruct (decide (now st + 1000 <= now st + d)), (decide (1000 <= d)); (done || lia).
    + cbn [due]. rewrite Hnow. unfold BACKUP_FROM_CONTENT_CHANGE_DELAY. lia.
Qed.

(** A call that is not [backup()], made just before, changes nothing to it. *)
Lemma restarted_call model h1 c st st' :
  (∀ m, c ≠ model_backup m) →
  restarted model h1 (call c st) st' → restarted model h1 st st'.
Proof.
  intros Hc (H1 & H2 & H3 & H4 & H5 & H6 & H7).
  unfold restarted. cbv zeta. cbn [nextHandle now call] in *.
  do 6 (split; [done|]). intros d. rewrite H7. cbn [calls call].
  rewrite backupCalls_app. unfold backupCalls at 2. cbn.
  destruct c; try (by rewrite app_nil_r). by destruct (Hc m).
Qed.

(** C3, as the code has it.  A backup of the resource of [model] is pending,
    its delay not yet over, and the model is dirty.

    - A qualifying content change of a file (a dirty copy, not suppressed, of
      a scheme other than untitled, whose model the text file service has)
      is handed to [backupModel] by the listener itself: when the listener
      returns, the pending timer has been cancelled for good and replaced by
      a fresh one, due 1000 after this change, the only live timer for the
      resource.  [backup()] is then called at most once, not before that
      time, and on a punctual loop exactly once, exactly then.
    - A qualifying content change of a document of the untitled scheme only
      starts resolving the model: when the listener returns, [pendingBackups]
      and the timers are what they were, the pending timer still live.
    - It is when a [resolve()] promise is fulfilled that [backupModel] runs:
      the pending timer is then cancelled and replaced as above, the delay
      being measured from the fulfilment. *)
Theorem C3_second_change_restarts_the_delay_once_the_model_is_at_hand
    (st : State) (model : Model) (h1 : positive) (tm1 : Timer) :
  reachable st →
  pendingBackups st !! m_resource model = Some (toDisposable_clearTimeout h1) →
  timers st !! h1 = Some tm1 →
  now st < due tm1 →
  model_isDirty (services st) model = true →
  (∀ workingCopy,
     onDidChangeContent ∈ _store st →
     wc_isDirty workingCopy = true →
     backupsDisabledForAutoSaveables st
       && js_not_number (js_bitand (wc_capabilities workingCopy)
                                   WorkingCopyCapabilities_Untitled) = false →
     scheme (wc_resource workingCopy) ≠ Schemas_untitled →
     textFileService_models_get (services st) (wc_resource workingCopy) = Some model →
     restarted model h1 st
       (deliver st (workingCopyService_onDidChangeContent workingCopy)))
  ∧ (∀ workingCopy,
       wc_isDirty workingCopy = true →
       backupsDisabledForAutoSaveables st
         && js_not_number (js_bitand (wc_capabilities workingCopy)
                                     WorkingCopyCapabilities_Untitled) = false →
       scheme (wc_resource workingCopy) = Schemas_untitled →
       let st' := deliver st (workingCopyService_onDidChangeContent workingCopy) in
       pendingBackups st' = pendingBackups st
       ∧ timers st' = timers st
       ∧ timers st' !! h1 = Some tm1
       ∧ (onDidChangeContent ∈ _store st →
          resolving st' = resolving st ++ [wc_resource workingCopy]))
  ∧ (∀ i r, resolving st !! i = Some r →
            restarted model h1 st (promiseResolved st i model))
  ∧ due tm1 <= now st + 1000.
Proof.
  intros Hinv%reachable_inv Hp1 Hh1 Hnotdue Hdirty.
  split; [|split; [|split]].
  - intros workingCopy Hsub Hwc Hguard Hscheme%String.eqb_neq Hget.
    assert (deliver st (workingCopyService_onDidChangeContent workingCopy)
            = backupModel
                (call (textFileService_models_get_called (wc_resource workingCopy)) st)
                model) as ->.
    { unfold deliver. rewrite bool_decide_eq_true_2 by done.
      cbn [handler]. unfold onDidChangeWorkingCopyContent.
      rewrite Hwc, Hguard, Hscheme. cbn [negb services call]. by rewrite Hget. }
    apply (restarted_call model h1
             (textFileService_models_get_called (wc_resource workingCopy))); [done|].
    apply (backupModel_restarted _ model h1 tm1); [by apply inv_call|done..].
  - intros workingCopy Hwc Hguard Hscheme%String.eqb_eq st'.
    assert (st' = if bool_decide (onDidChangeContent ∈ _store st)
                  then createOrGet_resolve_then st (wc_resource workingCopy)
                  else st) as ->.
    { unfold st', deliver. cbn [listener_of handler].
      unfold onDidChangeWorkingCopyContent.
      by rewrite Hwc, Hguard, Hscheme. }
    case_bool_decide; repeat split; done.
  - intros i r Hi. unfold promiseResolved. rewrite Hi.
    apply (backupModel_restarted (set_resolving (delete i (resolving st)) st)
             model h1 tm1); [by apply inv_set_resolving|done..].
  - apply (inv_due _ Hinv) in Hh1. unfold BACKUP_FROM_CONTENT_CHANGE_DELAY in Hh1. lia.
Qed.

(** C4.  When a timer set by [backupModel] expires, its entry leaves
    [pendingBackups] and the dirtiness of the model is read again:
    [backup()] is called, once, if the model is dirty, and not at all if it
    is not - and, no timer being left for the resource, quietly never.  When
    the backup of [R] has been discarded before its timer was due, that timer
    is not live any more and [backup()] is not called on a model of [R]
    either.  In any turn of the event loop [backup()] is called only from an
    expiring timer whose model is dirty. *)
Theorem C4_no_backup_unless_dirty_at_expiry (st : State) :
  reachable st →
  (∀ h tm, timers st !! h = Some tm →
     let R := m_resource (t_model tm) in
     let st' := fireTimer st h in
     timers st' !! h = None
     ∧ pendingBackups st' !! R = None
     ∧ liveTimersFor R st' = []
     ∧ (model_isDirty (services st) (t_model tm) = false →
          calls st' = calls st
          ∧ ∀ st'', quiet_run st' st'' →
              backupCalls R (calls st'') = backupCalls R (calls st))
     ∧ (model_isDirty (services st) (t_model tm) = true →
          calls st' = calls st ++
            [(now st, logService_trace "[backup tracker] running backup" R);
             (now st, model_backup (t_model tm))]))
  ∧ (∀ R,
       let st' := discardBackup st R in
       liveTimersFor R st' = []
       ∧ (∀ h, pendingBackups st !! R = Some (toDisposable_clearTimeout h) →
               fireTimer st' h = st')
       ∧ ∀ st'', quiet_run st' st'' →
           backupCalls R (calls st'') = backupCalls R (calls st))
  ∧ (∀ st', step st st' → extends (backupFromTimer st) st st').
Proof.
  intros Hreach. pose proof (reachable_inv _ Hreach) as Hinv.
  split; [|split].
  - intros h tm Hh R st'.
    assert (∀ h' tm', timers st' !! h' = Some tm' → m_resource (t_model tm') ≠ R) as Hno.
    { intros h' tm'. unfold st'. rewrite fireTimer_timers.
      intros [Hne Hh']%lookup_delete_Some Hr.
      apply (inv_timer _ Hinv) in Hh, Hh'. fold R in Hh. rewrite Hr, Hh in Hh'. congruence. }
    split; [unfold st'; rewrite fireTimer_timers; apply lookup_delete_eq|].
    split; [unfold st'; rewrite (fireTimer_pending _ _ _ Hh); apply lookup_delete_eq|].
    split; [by apply liveTimersFor_nil|].
    split.
    + intros Hclean.
      assert (calls st' = calls st) as Hcalls.
      { unfold st'. by rewrite (fireTimer_calls _ _ _ Hh), Hclean, app_nil_r. }
      split; [done|]. intros st'' Hrun.
      destruct (quiet_run_no_timer R _ _ Hrun Hno) as (_ & new & E & B).
      by rewrite E, backupCalls_app, B, app_nil_r, Hcalls.
    + intros Hdirty. unfold st'. by rewrite (fireTimer_calls _ _ _ Hh), Hdirty.
  - intros R st'.
    assert (∀ h tm, timers st' !! h = Some tm → m_resource (t_model tm) ≠ R) as Hno.
    { intros h tm. unfold st'. rewrite discardBackup_eq. cbn [timers call].
      apply clearRunning_no_timer. by apply inv_call. }
    split; [by apply liveTimersFor_nil|]. split.
    + intros h Hp. unfold fireTimer.
      assert (timers st' !! h = None) as ->; [|done].
      unfold st'. rewrite discardBackup_timers, Hp. apply lookup_delete_eq.
    + intros st'' Hrun.
      destruct (quiet_run_no_timer R _ _ Hrun Hno) as (_ & new & E & B).
      rewrite E, backupCalls_app, B, app_nil_r. unfold st'.
      rewrite discardBackup_calls, backupCalls_app. unfold backupCalls at 2. cbn.
      by rewrite app_nil_r.
  - apply step_extends.
Qed.

End Debounce.

(** The theorem in the scenario of the specification: [D] became dirty at
    time 0 and changes again at time 500. *)
Lemma C3_witness :
  timers Scenario.s2 !! 1%positive = None
  ∧ timers Scenario.s2 !! 2%positive = Some {| due := 1500; t_model := Scenario.modelD |}
  ∧ backupCalls Scenario.D (calls (advance Scenario.s2 999)) = []
  ∧ backupCalls Scenario.D (calls (advance Scenario.s2 1000)) = [1500].
Proof.
  destruct (@C3_second_change_restarts_the_delay_once_the_model_is_at_hand vscode
              Scenario.s1' Scenario.modelD
              1%positive {| due := 1000; t_model := Scenario.modelD |})
    as (Hfile & _).
  - apply reachable_s1'.
  - vm_compute. reflexivity.
  - vm_compute. reflexivity.
  - vm_compute. reflexivity.
  - reflexivity.
  - destruct (Hfile (Scenario.dirty Scenario.D Scenario.AutoSave))
      as (Hgone & _ & _ & Hnew & _ & _ & Hadv).
    + vm_compute. repeat constructor.
    + reflexivity.
    + reflexivity.
    + discriminate.
    + reflexivity.
    + split; [exact Hgone|]. split; [exact Hnew|].
      split; [exact (Hadv 999)|exact (Hadv 1000)].
Defined.

(** C3, as stated, fails for a document of the untitled scheme.  The backup
    of [U] is pending and due at 1000 when [U] changes again at 900: the
    listener starts resolving and returns with the timer still live.  The
    timer expires at 1000 and [backup()] is called; the model is resolved at
    1005, a new timer is set, and [backup()] is called again at 2005. *)
Lemma C3_counterexample :
  @reachable vscode Scenario.u8
  ∧ pendingBackups Scenario.u3 !! Scenario.U = Some (toDisposable_clearTimeout 1)
  ∧ timers Scenario.u3 !! 1%positive = Some {| due := 1000; t_model := Scenario.modelU |}
  ∧ now Scenario.u3 = 900
  ∧ timers Scenario.u4 !! 1%positive = Some {| due := 1000; t_model := Scenario.modelU |}
  ∧ backupCalls Scenario.U (calls (advance Scenario.u8 1000)) = [1000; 2005]
  ∧ ¬ (∀ st workingCopy h tm,
         @reachable vscode st →
         onDidChangeContent ∈ _store st →
         wc_isDirty workingCopy = true →
         backupsDisabledForAutoSaveables st
           && js_not_number (js_bitand (wc_capabilities workingCopy)
                                       (@WorkingCopyCapabilities_Untitled vscode)) = false →
         pendingBackups st !! wc_resource workingCopy = Some (toDisposable_clearTimeout h) →
         timers st !! h = Some tm →
         now st < due tm →
         timers (@deliver vscode st (workingCopyService_onDidChangeContent workingCopy)) !! h
         = None).
Proof.
  assert (@reachable vscode Scenario.u3) as Hu3.
  { unfold Scenario.u3, Scenario.u2, Scenario.u1.
    eapply reachable_step; [|apply step_tick; lia].
    eapply reachable_step; [|apply step_resolved].
    eapply reachable_step; [apply reachable_new|apply step_event]. }
  split.
  { unfold Scenario.u8, Scenario.u7, Scenario.u6, Scenario.u5, Scenario.u4.
    eapply reachable_step; [|apply step_resolved].
    eapply reachable_step; [|apply step_tick; lia].
    eapply reachable_step;
      [|apply (step_timer _ 1%positive {| due := 1000; t_model := Scenario.modelU |});
        [vm_compute; reflexivity|vm_compute; discriminate]].
    eapply reachable_step; [|apply step_tick; lia].
    eapply reachable_step; [exact Hu3|apply step_event]. }
  do 5 (split; [vm_compute; reflexivity|]).
  intros Hall.
  specialize (Hall Scenario.u3 (Scenario.dirty Scenario.U Scenario.Untitled) 1%positive
                {| due := 1000; t_model := Scenario.modelU |} Hu3).
  assert (timers Scenario.u4 !! 1%positive = None) as Hnone.
  { apply Hall; vm_compute; first [reflexivity | repeat constructor]. }
  vm_compute in Hnone. discriminate.
Qed.

(** The theorem where [D] has been saved by the time its timer expires. *)
Lemma C4_witness :
  let st := set_services Scenario.allSaved (tick Scenario.s1 1000) in
  pendingBackups st !! Scenario.D = Some (toDisposable_clearTimeout 1)
  ∧ pendingBackups (fireTimer st 1) !! Scenario.D = None
  ∧ calls (fireTimer st 1) = calls st.
Proof.
  intros st. split; [vm_compute; reflexivity|].
  destruct (@C4_no_backup_unless_dirty_at_expiry vscode st) as (Hfire & _).
  - eapply reachable_step; [|apply step_services].
    eapply reachable_step; [apply reachable_s1|apply step_tick; lia].
  - destruct (Hfire 1%positive {| due := 1000; t_model := Scenario.modelD |})
      as (_ & Hp & _ & Hclean & _); [vm_compute; reflexivity|].
    split; [exact Hp|]. apply Hclean. reflexivity.
Defined.

(** The scenarios of the specification, on a punctual event loop. *)
Example debounce_scenario :
  dueTimers 5000 Scenario.s1 = [(1%positive, {| due := 1000; t_model := Scenario.modelD |})]
  ∧ dueTimers 5000 Scenario.s2 = [(2%positive, {| due := 1500; t_model := Scenario.modelD |})]
  ∧ backupCalls Scenario.D (calls (advance Scenario.s2 999)) = []
  ∧ backupCalls Scenario.D (calls (advance Scenario.s2 1000)) = [1500]
  ∧ backupCalls Scenario.D (calls (advance Scenario.s2 5000)) = [1500]
  ∧ backupCalls Scenario.D
      (calls (advance (set_services Scenario.allSaved Scenario.s2) 5000)) = [].
Proof. vm_compute. done. Qed.

Example saved_scenario :
  let st := @deliver vscode Scenario.s1 (textFileService_models_onModelSaved Scenario.D) in
  pendingBackups Scenario.s1 !! Scenario.D = Some (toDisposable_clearTimeout 1)
  ∧ pendingBackups st = ∅
  ∧ timers st = ∅
  ∧ discardCalls Scenario.D (calls st) = 1%nat
  ∧ backupCalls Scenario.D (calls (advance st 5000)) = [].
Proof. vm_compute. done. Qed.

(** * Further properties of the tracker *)

(** ** The flag and the constructor *)

Section Flag.
Context `{Workbench}.

Lemma clearRunning_flag st r :
  backupsDisabledForAutoSaveables (clearRunning st r)
  = backupsDisabledForAutoSaveables st.
Proof. by destruct (clearRunning_other st r) as (-> & _). Qed.

Lemma backupModel_flag st model :
  backupsDisabledForAutoSaveables (backupModel st model)
  = backupsDisabledForAutoSaveables st.
Proof.
  rewrite backupModel_eq. destruct (model_isDirty (services st) model).
  - unfold scheduleNew, setTimeout.
    cbn [backupsDisabledForAutoSaveables set_pendingBackups set_timers call].
    apply clearRunning_flag.
  - apply clearRunning_flag.
Qed.

Lemma discardBackup_flag st r :
  backupsDisabledForAutoSaveables (discardBackup st r)
  = backupsDisabledForAutoSaveables st.
Proof.
  rewrite discardBackup_eq. cbn [backupsDisabledForAutoSaveables call].
  by rewrite clearRunning_flag.
Qed.

Lemma fireTimer_flag st h :
  backupsDisabledForAutoSaveables (fireTimer st h)
  = backupsDisabledForAutoSaveables st.
Proof.
  unfold fireTimer, backupModel_timeout.
  destruct (timers st !! h) as [tm|]; [|done]. cbn.
  by destruct (model_isDirty (services st) (t_model tm)).
Qed.

Lemma handler_flag st ev :
  (∀ c, ev ≠ filesConfigurationService_onAutoSaveConfigurationChange c) →
  backupsDisabledForAutoSaveables (handler st ev)
  = backupsDisabledForAutoSaveables st.
Proof.
  intros Hev. destruct ev; cbn [handler]; try apply discardBackup_flag.
  - unfold onDidChangeWorkingCopyContent.
    destruct (negb _); [apply discardBackup_flag|].
    destruct (_ && _); [done|].
    destruct (String.eqb _ _); [done|]. cbn [services call].
    destruct (textFileService_models_get _ _); [|done].
    by rewrite backupModel_flag.
  - unfold onDidCreateUntitled. by destruct (untitledTextEditorService_isDirty _ _).
  - by destruct (Hev c).
Qed.

(** X1.  The flag [backupsDisabledForAutoSaveables] is false in a new
    tracker, whatever the auto save configuration is at that time: the
    constructor does not read it.  A turn of the event loop changes the flag
    only by delivering an auto save configuration event to its listener, and
    two such events in a row leave the state the second alone would have
    left: the flag has no memory. *)
Theorem X1_flag_written_by_configuration_events_only (st st' : State) :
  step st st' →
  (backupsDisabledForAutoSaveables st' = backupsDisabledForAutoSaveables st
   ∨ ∃ c, onAutoSaveConfigurationChange_listener ∈ _store st
          ∧ st' = onAutoSaveConfigurationChange st c)
  ∧ (∀ svc t0, backupsDisabledForAutoSaveables (BackupTracker_new svc t0) = false)
  ∧ (∀ c1 c2, onAutoSaveConfigurationChange (onAutoSaveConfigurationChange st c1) c2
              = onAutoSaveConfigurationChange st c2).
Proof.
  intros Hstep. split; [|split; [done|done]].
  destruct Hstep as [st ev|st h tm Hh Hdue|st i model|st i|st d Hd|st svc|st];
    try (by left).
  - unfold deliver. case_bool_decide as Hin; [|by left].
    destruct ev as [c|r|r|r|r|r|c];
      try (left; by apply handler_flag).
    right. by exists c.
  - left. apply fireTimer_flag.
  - left. unfold promiseResolved. destruct (resolving st !! i); [|done].
    by rewrite backupModel_flag.
Qed.

End Flag.

(** The theorem at the configuration of a delay of 500 while [D]'s backup
    is pending. *)
Lemma X1_witness :
  backupsDisabledForAutoSaveables Scenario.s1_suppressed
  = backupsDisabledForAutoSaveables Scenario.s1'
  ∨ ∃ c, onAutoSaveConfigurationChange_listener ∈ _store Scenario.s1'
         ∧ Scenario.s1_suppressed = onAutoSaveConfigurationChange Scenario.s1' c.
Proof.
  apply (@X1_flag_written_by_configuration_events_only vscode
           Scenario.s1' Scenario.s1_suppressed).
  unfold Scenario.s1_suppressed. apply step_event.
Defined.

(** ** Untitled documents that are created dirty *)

Section Created.
Context `{Workbench}.

Lemma promiseResolved_last st r model :
  promiseResolved (createOrGet_resolve_then st r) (length (resolving st)) model
  = backupModel (call (untitledTextEditorService_createOrGet_resolve r) st) model.
Proof.
  unfold promiseResolved, createOrGet_resolve_then.
  cbn [resolving set_resolving call].
  rewrite list_lookup_middle by done.
  replace (delete (length (resolving st)) (resolving st ++ [r])) with (resolving st).
  - by destruct st.
  - rewrite delete_middle by done. by rewrite app_nil_r.
Qed.

Lemma promiseRejected_last st r :
  promiseRejected (createOrGet_resolve_then st r) (length (resolving st))
  = call (untitledTextEditorService_createOrGet_resolve r) st.
Proof.
  unfold promiseRejected, createOrGet_resolve_then.
  cbn [resolving set_resolving call].
  replace (delete (length (resolving st)) (resolving st ++ [r])) with (resolving st).
  - by destruct st.
  - rewrite delete_middle by done. by rewrite app_nil_r.
Qed.

(** X2.  [onDidCreateUntitled] does nothing for a document the untitled
    service does not report dirty.  For a dirty one it starts resolving the
    model and returns with [pendingBackups] and the timers as they were: the
    backup is scheduled, a delay ahead, only when the promise is fulfilled
    and the model is dirty then, and not at all when the promise is rejected.
    The flag [backupsDisabledForAutoSaveables] is not consulted. *)
Theorem X2_created_untitled_is_backed_up_once_resolved (st : State) (resource : URI) :
  let st' := onDidCreateUntitled st resource in
  (untitledTextEditorService_isDirty (services st) resource = false → st' = st)
  ∧ (untitledTextEditorService_isDirty (services st) resource = true →
       pendingBackups st' = pendingBackups st
       ∧ timers st' = timers st
       ∧ resolving st' = resolving st ++ [resource]
       ∧ calls st'
         = calls st ++ [(now st, untitledTextEditorService_createOrGet_resolve resource)]
       ∧ (∀ model,
            model_isDirty (services st) model = true →
            let st'' := promiseResolved st' (length (resolving st)) model in
            pendingBackups st'' !! m_resource model
              = Some (toDisposable_clearTimeout (nextHandle st))
            ∧ timers st'' !! nextHandle st
              = Some {| due := now st + BACKUP_FROM_CONTENT_CHANGE_DELAY;
                        t_model := model |})
       ∧ (∀ model,
            model_isDirty (services st) model = false →
            let st'' := promiseResolved st' (length (resolving st)) model in
            pendingBackups st'' !! m_resource model = None
            ∧ nextHandle st'' = nextHandle st)
       ∧ (let st'' := promiseRejected st' (length (resolving st)) in
          pendingBackups st'' = pendingBackups st ∧ timers st'' = timers st
          ∧ resolving st'' = resolving st))
  ∧ (∀ b, onDidCreateUntitled (set_backupsDisabledForAutoSaveables b st) resource
          = set_backupsDisabledForAutoSaveables b st').
Proof.
  cbv zeta. unfold onDidCreateUntitled. split; [|split].
  - by intros ->.
  - intros ->. do 4 (split; [reflexivity|]). split; [|split].
    + intros model Hd. rewrite promiseResolved_last.
      by destruct (backupModel_schedules
                     (call (untitledTextEditorService_createOrGet_resolve resource) st)
                     model Hd) as (? & ? & _).
    + intros model Hd. rewrite promiseResolved_last.
      destruct (backupModel_clean
                  (call (untitledTextEditorService_createOrGet_resolve resource) st)
                  model Hd) as (-> & Hp & _).
      rewrite clearRunning_pending. split; [done|].
      by destruct (clearRunning_other
                     (call (untitledTextEditorService_createOrGet_resolve resource) st)
                     (m_resource model)) as (_ & _ & _ & -> & _).
    + by rewrite promiseRejected_last.
  - intros b. cbn [services set_backupsDisabledForAutoSaveables].
    by destruct (untitledTextEditorService_isDirty (services st) resource).
Qed.

End Created.

(** The theorem at the creation of the dirty untitled [U] while backups are
    disabled for auto-saveables. *)
Lemma X2_witness :
  let st := Scenario.s1_suppressed in
  let st' := onDidCreateUntitled st Scenario.U in
  pendingBackups st' = pendingBackups st
  ∧ timers (promiseResolved st' 0 Scenario.modelU) !! 2%positive
    = Some {| due := 1500; t_model := Scenario.modelU |}.
Proof.
  intros st st'.
  destruct (X2_created_untitled_is_backed_up_once_resolved st Scenario.U)
    as (_ & Hdirty & _).
  destruct Hdirty as (Hp & _ & _ & _ & Hres & _); [reflexivity|].
  split; [exact Hp|].
  destruct (Hres Scenario.modelU) as [_ Ht]; [reflexivity|exact Ht].
Defined.

(** ** Scheduling and discarding, composed *)

Section RoundTrip.
Context `{Workbench}.

Lemma backupModel_cancels st model h :
  inv st →
  pendingBackups st !! m_resource model = Some (toDisposable_clearTimeout h) →
  timers (backupModel st model) !! h = None.
Proof.
  intros Hinv Hp. rewrite backupModel_eq.
  assert (timers (clearRunning st (m_resource model)) !! h = None) as Hc.
  { rewrite clearRunning_timers, Hp. apply lookup_delete_eq. }
  destruct (model_isDirty (services st) model); [|done].
  unfold scheduleNew, setTimeout. cbn [timers set_pendingBackups set_timers call nextHandle].
  rewrite lookup_insert_ne; [done|].
  destruct (clearRunning_other st (m_resource model)) as (_ & _ & _ & -> & _).
  intros <-. destruct (inv_pending _ Hinv _ _ Hp) as (tm & Hh & _).
  apply (inv_fresh _ Hinv) in Hh. lia.
Qed.

(** X3.  After [backupModel] the resource of the model has an entry in
    [pendingBackups] exactly when the model is dirty.  The timer of an entry
    that was pending is never live afterwards; for a model that is not dirty
    no timer is left for the resource, no handle is used, nothing is logged
    and the backup store is not asked to discard anything. *)
Theorem X3_backupModel_entry_iff_dirty (st : State) (model : Model) :
  reachable st →
  let R := m_resource model in
  let st' := backupModel st model in
  (is_Some (pendingBackups st' !! R) ↔ model_isDirty (services st) model = true)
  ∧ (∀ h, pendingBackups st !! R = Some (toDisposable_clearTimeout h) →
          timers st' !! h = None)
  ∧ (model_isDirty (services st) model = false →
       liveTimersFor R st' = []
       ∧ nextHandle st' = nextHandle st
       ∧ calls st' = calls st).
Proof.
  intros Hinv%reachable_inv R st'. subst R st'. split; [|split].
  - destruct (model_isDirty (services st) model) eqn:Hd.
    + destruct (backupModel_schedules st model Hd) as (Hp & _).
      rewrite Hp. split; [done|by eexists].
    + destruct (backupModel_clean st model Hd) as (_ & Hp & _).
      rewrite Hp. split; [by intros [? ?]|done].
  - intros h. by apply backupModel_cancels.
  - intros Hd. destruct (backupModel_clean st model Hd) as (Heq & _ & Hcalls).
    split; [|split; [|done]]; rewrite Heq.
    + apply liveTimersFor_nil. intros h tm. by apply clearRunning_no_timer.
    + by destruct (clearRunning_other st (m_resource model)) as (_ & _ & _ & -> & _).
Qed.

Lemma clearRunning_idem st r :
  pendingBackups (clearRunning (clearRunning st r) r) = pendingBackups (clearRunning st r)
  ∧ timers (clearRunning (clearRunning st r) r) = timers (clearRunning st r).
Proof.
  split.
  - unfold clearRunning at 1. rewrite clearRunning_pending. cbn.
    apply delete_id, clearRunning_pending.
  - rewrite (clearRunning_timers (clearRunning st r)). by rewrite clearRunning_pending.
Qed.

Lemma discardBackup_maps st r :
  pendingBackups (discardBackup st r) = pendingBackups (clearRunning st r)
  ∧ timers (discardBackup st r) = timers (clearRunning st r).
Proof.
  rewrite discardBackup_eq. cbn [pendingBackups timers call].
  unfold clearRunning. cbn [pendingBackups call].
  by destruct (pendingBackups st !! r) as [[h]|].
Qed.

Lemma clearRunning_scheduleNew st model :
  inv st → pendingBackups st !! m_resource model = None →
  pendingBackups (clearRunning (scheduleNew st model) (m_resource model))
    = pendingBackups st
  ∧ timers (clearRunning (scheduleNew st model) (m_resource model)) = timers st.
Proof.
  intros Hinv Hnone.
  assert (timers st !! nextHandle st = None) as Hfresh.
  { destruct (timers st !! nextHandle st) as [tm|] eqn:Hh; [|done].
    apply (inv_fresh _ Hinv) in Hh. lia. }
  unfold clearRunning, scheduleNew, setTimeout.
  cbn [pendingBackups timers set_pendingBackups set_timers call nextHandle].
  rewrite lookup_insert_eq.
  cbn [dispose clearTimeout pendingBackups timers set_pendingBackups set_timers
       nextHandle].
  rewrite !delete_insert_eq. split; by apply delete_id.
Qed.

(** X4.  Discarding undoes scheduling.  [discardBackup] right after
    [backupModel] on a model of the same resource leaves [pendingBackups] and
    the timers as [discardBackup] alone would have left them - no entry and
    no live timer for the resource, every other entry and timer in place -
    and as they were before, if nothing was pending for the resource.  A
    second [discardBackup] changes neither, though the backup store is asked
    again. *)
Theorem X4_discard_undoes_schedule (st : State) (model : Model) :
  reachable st →
  let R := m_resource model in
  pendingBackups (discardBackup (backupModel st model) R)
    = pendingBackups (discardBackup st R)
  ∧ timers (discardBackup (backupModel st model) R) = timers (discardBackup st R)
  ∧ liveTimersFor R (discardBackup (backupModel st model) R) = []
  ∧ (pendingBackups st !! R = None →
       pendingBackups (discardBackup (backupModel st model) R) = pendingBackups st
       ∧ timers (discardBackup (backupModel st model) R) = timers st)
  ∧ pendingBackups (discardBackup (discardBackup st R) R)
      = pendingBackups (discardBackup st R)
  ∧ timers (discardBackup (discardBackup st R) R) = timers (discardBackup st R)
  ∧ discardCalls R (calls (discardBackup (discardBackup st R) R))
      = S (S (discardCalls R (calls st))).
Proof.
  intros Hinv%reachable_inv R. subst R.
  set (R := m_resource model).
  assert (pendingBackups (discardBackup (backupModel st model) R)
            = pendingBackups (discardBackup st R)
          ∧ timers (discardBackup (backupModel st model) R)
            = timers (discardBackup st R)) as [HP HT].
  { destruct (discardBackup_maps (backupModel st model) R) as [-> ->].
    destruct (discardBackup_maps st R) as [-> ->].
    rewrite backupModel_eq. destruct (model_isDirty (services st) model).
    - apply clearRunning_scheduleNew; [by apply inv_clearRunning|].
      apply clearRunning_pending.
    - apply clearRunning_idem. }
  split; [done|]. split; [done|]. split; [|split; [|split; [|split]]].
  - apply liveTimersFor_nil. intros h tm.
    destruct (discardBackup_maps (backupModel st model) R) as [_ ->].
    apply clearRunning_no_timer. by apply inv_backupModel.
  - intros Hnone. rewrite HP, HT.
    destruct (discardBackup_maps st R) as [-> ->].
    unfold clearRunning. rewrite Hnone. cbn. split; [by apply delete_id|done].
  - destruct (discardBackup_maps (discardBackup st R) R) as [-> _].
    unfold clearRunning. rewrite discardBackup_pending. cbn.
    apply delete_id, discardBackup_pending.
  - destruct (discardBackup_maps (discardBackup st R) R) as [_ ->].
    rewrite clearRunning_timers. by rewrite discardBackup_pending.
  - by rewrite !discardBackup_discardCalls.
Qed.

End RoundTrip.

(** The theorems at [D], whose backup is pending, and at [E], for which
    nothing is. *)
Lemma X3_witness :
  is_Some (pendingBackups (backupModel Scenario.s1' Scenario.modelD) !! Scenario.D)
  ↔ model_isDirty (services Scenario.s1') Scenario.modelD = true.
Proof.
  apply (@X3_backupModel_entry_iff_dirty vscode Scenario.s1' Scenario.modelD).
  apply reachable_s1'.
Defined.

Lemma X4_witness :
  pendingBackups (discardBackup (backupModel Scenario.s1' Scenario.modelE) Scenario.E)
    = pendingBackups Scenario.s1'
  ∧ timers (discardBackup (backupModel Scenario.s1' Scenario.modelE) Scenario.E)
    = timers Scenario.s1'.
Proof.
  destruct (@X4_discard_undoes_schedule vscode Scenario.s1' Scenario.modelE
              reachable_s1') as (_ & _ & _ & Hnone & _).
  apply Hnone. vm_compute. reflexivity.
Defined.

(** ** What a turn of the event loop leaves alone *)

Section Frames.
Context `{Workbench}.

Lemma untouched_entryUntouched r st st' : untouched r st st' → entryUntouched r st st'.
Proof. intros (? & ? & ? & _). split; [done|split; done]. Qed.

Lemma untouched_refl r st : untouched r st st.
Proof. by repeat split. Qed.

Lemma untouched_set_resolving r l st : untouched r st (set_resolving l st).
Proof. by repeat split. Qed.

Lemma untouched_fireTimer st h r' :
  inv st →
  (∀ tm, timers st !! h = Some tm → m_resource (t_model tm) ≠ r') →
  untouched r' st (fireTimer st h).
Proof.
  intros Hinv Hne.
  destruct (timers st !! h) as [tm|] eqn:Hh; [|unfold fireTimer; rewrite Hh; apply untouched_refl].
  specialize (Hne tm eq_refl).
  assert (∀ h' tm', timers st !! h' = Some tm' → m_resource (t_model tm') = r' → h' ≠ h)
    as Hother.
  { intros h' tm' Hh' Hr' ->. congruence. }
  split; [|split; [|split]].
  - rewrite (fireTimer_pending _ _ _ Hh). by apply lookup_delete_ne.
  - intros h' Hp. destruct (inv_pending _ Hinv _ _ Hp) as (tm' & Hh' & Hr').
    rewrite fireTimer_timers. apply lookup_delete_ne. symmetry. by apply Hother with tm'.
  - intros h' tm' Hr'. rewrite fireTimer_timers, lookup_delete_Some. split; [by intros [_ ?]|].
    intros Hh'. split; [|done]. symmetry. by apply Hother with tm'.
  - apply fireTimer_flag.
Qed.

(** X5.  The callback of an expiring timer leaves every resource but the one
    of its model alone - entry, timer and flag -, sets no timer, and leaves
    the pending promises as they are; the live timers afterwards are the
    live timers before, less the one that expired. *)
Theorem X5_expiry_touches_its_resource_only (st : State) (h : positive) (tm : Timer) :
  reachable st →
  timers st !! h = Some tm →
  let st' := fireTimer st h in
  (∀ R', R' ≠ m_resource (t_model tm) → untouched R' st st')
  ∧ timers st' = delete h (timers st)
  ∧ pendingBackups st' = delete (m_resource (t_model tm)) (pendingBackups st)
  ∧ nextHandle st' = nextHandle st
  ∧ resolving st' = resolving st.
Proof.
  intros Hinv%reachable_inv Hh st'. subst st'. split; [|split; [|split; [|split]]].
  - intros R' Hne. apply untouched_fireTimer; [done|]. intros tm' Hh'. congruence.
  - apply fireTimer_timers.
  - by apply fireTimer_pending.
  - by destruct (fireTimer_other st h) as (_ & _ & ->).
  - unfold fireTimer, backupModel_timeout. rewrite Hh. cbn.
    by destruct (model_isDirty (services st) (t_model tm)).
Qed.

Lemma entryUntouched_handler st ev r' :
  inv st → touchedBy st ev ≠ Some r' → entryUntouched r' st (handler st ev).
Proof.
  intros Hinv Hne.
  destruct ev as [c|r|r|r|r|r|c]; cbn [handler touchedBy] in *.
  - apply untouched_entryUntouched. unfold onDidChangeWorkingCopyContent.
    destruct (negb (wc_isDirty c)).
    { apply untouched_discardBackup; [done|congruence]. }
    destruct (_ && _); [apply untouched_refl|].
    destruct (String.eqb _ _).
    { unfold createOrGet_resolve_then.
      eapply untouched_trans; [done|apply untouched_call|apply untouched_set_resolving]. }
    cbn [services call].
    destruct (textFileService_models_get (services st) (wc_resource c)) as [model|];
      [|apply untouched_call].
    eapply untouched_trans; [done|apply untouched_call|].
    apply untouched_backupModel; [by apply inv_call|]. cbn in Hne. congruence.
  - apply untouched_entryUntouched, untouched_discardBackup; [done|congruence].
  - apply untouched_entryUntouched, untouched_discardBackup; [done|congruence].
  - apply untouched_entryUntouched, untouched_discardBackup; [done|congruence].
  - apply untouched_entryUntouched. unfold onDidCreateUntitled.
    destruct (untitledTextEditorService_isDirty _ _); [|apply untouched_refl].
    unfold createOrGet_resolve_then.
    eapply untouched_trans; [done|apply untouched_call|apply untouched_set_resolving].
  - apply untouched_entryUntouched, untouched_discardBackup; [done|congruence].
  - by repeat split.
Qed.

(** X6.  A listener changes the pending backup of at most one resource: the
    one that is discarded, or the one of the model handed to [backupModel].
    Whatever the event, the entry and the timer of every other resource are
    after the listener what they were before; an event that only starts
    resolving a model, sets the flag, is suppressed or finds no model changes
    no entry and no timer at all, and an event that is no longer subscribed
    to changes nothing whatsoever. *)
Theorem X6_listener_touches_one_resource (st : State) (ev : Event) :
  reachable st →
  (∀ R', touchedBy st ev ≠ Some R' →
         entryUntouched R' st (handler st ev)
         ∧ entryUntouched R' st (deliver st ev))
  ∧ (touchedBy st ev = None →
       pendingBackups (deliver st ev) = pendingBackups st
       ∧ timers (deliver st ev) = timers st)
  ∧ (listener_of ev ∉ _store st → deliver st ev = st).
Proof.
  intros Hinv%reachable_inv. split; [|split].
  - intros R' Hne.
    pose proof (entryUntouched_handler st ev R' Hinv Hne) as Hh.
    split; [done|].
    unfold deliver. case_bool_decide; [done|by repeat split].
  - intros Hnone. unfold deliver. case_bool_decide; [|done].
    destruct ev as [c|r|r|r|r|r|c]; cbn [handler touchedBy] in *; try done.
    + unfold onDidChangeWorkingCopyContent.
      destruct (negb (wc_isDirty c)); [done|].
      destruct (_ && _); [done|].
      destruct (String.eqb _ _); [done|]. cbn [services call].
      by destruct (textFileService_models_get (services st) (wc_resource c)).
    + unfold onDidCreateUntitled.
      by destruct (untitledTextEditorService_isDirty _ _).
  - intros Hout. unfold deliver. by rewrite bool_decide_eq_false_2.
Qed.

End Frames.

(** The theorems where backups are pending for [D] and [E]: the timer of [D]
    expires, and [D] is saved. *)
Lemma X5_witness :
  let st := tick (@deliver vscode Scenario.s1 (Scenario.change Scenario.E Scenario.AutoSave))
                 1000 in
  untouched Scenario.E st (fireTimer st 1).
Proof.
  intros st.
  destruct (@X5_expiry_touches_its_resource_only vscode st 1%positive
              {| due := 1000; t_model := Scenario.modelD |}) as (Hun & _).
  - eapply reachable_step; [|apply step_tick; lia].
    eapply reachable_step; [apply reachable_s1|apply step_event].
  - vm_compute. reflexivity.
  - apply Hun. discriminate.
Defined.

Lemma X6_witness :
  let st := @deliver vscode Scenario.s1 (Scenario.change Scenario.E Scenario.AutoSave) in
  entryUntouched Scenario.E st
    (@deliver vscode st (textFileService_models_onModelSaved Scenario.D))
  ∧ @deliver vscode (Disposable_dispose st) (textFileService_models_onModelSaved Scenario.D)
    = Disposable_dispose st.
Proof.
  intros st.
  assert (@reachable vscode st) as Hreach
    by (eapply reachable_step; [apply reachable_s1|apply step_event]).
  split.
  - apply (@X6_listener_touches_one_resource vscode st
             (textFileService_models_onModelSaved Scenario.D) Hreach).
    discriminate.
  - apply (@X6_listener_touches_one_resource vscode (Disposable_dispose st)
             (textFileService_models_onModelSaved Scenario.D)).
    + eapply reachable_step; [exact Hreach|apply step_dispose].
    + apply not_elem_of_nil.
Defined.

(** ** Entries and timers, counted; and how long they last *)

Section Drain.
Context `{Workbench}.

Lemma inv_quiet_run st st' : quiet_run st st' → inv st → inv st'.
Proof.
  induction 1 as [|x y z Hxy Hyz IH]; [done|].
  intros Hinv. apply IH. eapply inv_step; [by apply quiet_step_step|done].
Qed.

Lemma inv_no_timers st : inv st → timers st = ∅ → pendingBackups st = ∅.
Proof.
  intros Hinv Hempty. apply map_eq. intros r. rewrite lookup_empty.
  destruct (pendingBackups st !! r) as [[h]|] eqn:Hp; [|done].
  destruct (inv_pending _ Hinv _ _ Hp) as (tm & Hh & _).
  by rewrite Hempty, lookup_empty in Hh.
Qed.

(** As many entries as live timers: kept by every operation. *)
Lemma balanced_clearRunning st r :
  inv st → size (pendingBackups st) = size (timers st) →
  size (pendingBackups (clearRunning st r)) = size (timers (clearRunning st r)).
Proof.
  intros Hinv Hb. rewrite clearRunning_timers. unfold clearRunning.
  destruct (pendingBackups st !! r) as [[h]|] eqn:Hp; cbn.
  - destruct (inv_pending _ Hinv _ _ Hp) as (tm & Hh & _).
    rewrite !map_size_delete_Some by (by eexists). by rewrite Hb.
  - by rewrite map_size_delete_None.
Qed.

Lemma balanced_scheduleNew st model :
  inv st → pendingBackups st !! m_resource model = None →
  size (pendingBackups st) = size (timers st) →
  size (pendingBackups (scheduleNew st model)) = size (timers (scheduleNew st model)).
Proof.
  intros Hinv Hnone Hb. unfold scheduleNew, setTimeout.
  cbn [pendingBackups timers set_pendingBackups set_timers call nextHandle].
  rewrite !map_size_insert_None; [by rewrite Hb| |done].
  destruct (timers st !! nextHandle st) as [tm|] eqn:Hh; [|done].
  apply (inv_fresh _ Hinv) in Hh. lia.
Qed.

Lemma balanced_backupModel st model :
  inv st → size (pendingBackups st) = size (timers st) →
  size (pendingBackups (backupModel st model)) = size (timers (backupModel st model)).
Proof.
  intros Hinv Hb. rewrite backupModel_eq.
  pose proof (balanced_clearRunning st (m_resource model) Hinv Hb) as Hc.
  destruct (model_isDirty (services st) model); [|done].
  apply balanced_scheduleNew; [by apply inv_clearRunning|apply clearRunning_pending|done].
Qed.

Lemma balanced_discardBackup st r :
  inv st → size (pendingBackups st) = size (timers st) →
  size (pendingBackups (discardBackup st r)) = size (timers (discardBackup st r)).
Proof.
  intros Hinv Hb. destruct (discardBackup_maps st r) as [-> ->].
  by apply balanced_clearRunning.
Qed.

Lemma balanced_fireTimer st h :
  inv st → size (pendingBackups st) = size (timers st) →
  size (pendingBackups (fireTimer st h)) = size (timers (fireTimer st h)).
Proof.
  intros Hinv Hb. destruct (timers st !! h) as [tm|] eqn:Hh.
  - rewrite fireTimer_timers, (fireTimer_pending _ _ _ Hh).
    pose proof (inv_timer _ Hinv _ _ Hh) as Hp.
    rewrite !map_size_delete_Some by (by eexists). by rewrite Hb.
  - unfold fireTimer. by rewrite Hh.
Qed.

Lemma balanced_handler st ev :
  inv st → size (pendingBackups st) = size (timers st) →
  size (pendingBackups (handler st ev)) = size (timers (handler st ev)).
Proof.
  intros Hinv Hb. destruct ev as [c|r|r|r|r|r|c]; cbn [handler];
    try (by apply balanced_discardBackup); [| |done].
  - unfold onDidChangeWorkingCopyContent.
    destruct (negb (wc_isDirty c)); [by apply balanced_discardBackup|].
    destruct (_ && _); [done|]. destruct (String.eqb _ _); [done|].
    cbn [services call].
    destruct (textFileService_models_get (services st) (wc_resource c)); [|done].
    apply balanced_backupModel; [by apply inv_call|done].
  - unfold onDidCreateUntitled. by destruct (untitledTextEditorService_isDirty _ _).
Qed.

Lemma balanced_step st st' :
  step st st' → inv st → size (pendingBackups st) = size (timers st) →
  size (pendingBackups st') = size (timers st').
Proof.
  destruct 1 as [st ev|st h tm Hh Hdue|st i model|st i|st d Hd|st svc|st];
    intros Hinv Hb; try done.
  - unfold deliver. case_bool_decide; [by apply balanced_handler|done].
  - by apply balanced_fireTimer.
  - unfold promiseResolved. destruct (resolving st !! i); [|done].
    apply balanced_backupModel; [by apply inv_set_resolving|done].
Qed.

Lemma reachable_balanced st :
  reachable st → size (pendingBackups st) = size (timers st).
Proof.
  induction 1 as [svc t0|st st' Hreach IH Hstep]; [done|].
  eapply balanced_step; [done|by apply reachable_inv|done].
Qed.

(** X7.  In every state the tracker can be in, the entries of
    [pendingBackups] and the live timers set by [backupModel] match one to
    one: an entry is the disposable of a live timer for a model of its
    resource, a live timer is guarded by the entry of its model's resource,
    and there are as many of the ones as of the others.  No timer runs
    without an entry that can cancel it, and no entry outlives its timer. *)
Theorem X7_entries_and_timers_match (st : State) :
  reachable st →
  size (pendingBackups st) = size (timers st)
  ∧ (∀ r d, pendingBackups st !! r = Some d →
       ∃ h tm, d = toDisposable_clearTimeout h
               ∧ timers st !! h = Some tm ∧ m_resource (t_model tm) = r)
  ∧ (∀ h tm, timers st !! h = Some tm →
       pendingBackups st !! m_resource (t_model tm)
       = Some (toDisposable_clearTimeout h))
  ∧ (timers st = ∅ ↔ pendingBackups st = ∅).
Proof.
  intros Hreach. pose proof (reachable_inv _ Hreach) as Hinv.
  pose proof (reachable_balanced _ Hreach) as Hb.
  split; [done|]. split; [|split].
  - intros r [h] Hp. destruct (inv_pending _ Hinv _ _ Hp) as (tm & Hh & Hr).
    by exists h, tm.
  - apply (inv_timer _ Hinv).
  - rewrite <- !map_size_empty_iff. by rewrite Hb.
Qed.

Lemma foldl_expire_timers_in l : ∀ s e,
  e ∈ l → timers (foldl expire s l) !! e.1 = None.
Proof.
  induction l as [|e0 l IH]; intros s e He; [by apply elem_of_nil in He|].
  cbn. apply elem_of_cons in He as [->|He]; [|by apply IH].
  destruct (timers (foldl expire (expire s e0) l) !! e0.1) as [tm|] eqn:Hh; [|done].
  apply foldl_expire_timers_sub in Hh. by rewrite expire_timers, lookup_delete_eq in Hh.
Qed.

(** The timers that are still live after [advance]: those not yet due. *)
Lemma advance_timers st d h tm :
  timers (advance st d) !! h = Some tm →
  timers st !! h = Some tm ∧ now st + d < due tm.
Proof.
  unfold advance. cbn [timers set_now]. intros Hh.
  pose proof (foldl_expire_timers_sub _ _ _ _ Hh) as Hlive. split; [done|].
  destruct (decide (due tm <= now st + d)) as [Hdue|]; [|lia].
  assert ((h, tm) ∈ dueTimers (now st + d) st) as Hin by (by apply elem_of_dueTimers).
  apply (foldl_expire_timers_in _ st) in Hin. cbn in Hin. congruence.
Qed.

(** X8.  No pending backup lasts longer than the delay: left alone for
    [BACKUP_FROM_CONTENT_CHANGE_DELAY] = 1000 time units, with timers
    expiring when they are due, the tracker has no live timer and no entry
    left, and for each timer that was live and not overdue [backup()] has
    been called on its model once more, when the timer was due, if the
    model is dirty, and not at all if it is not. *)
Theorem X8_pending_backups_drain_within_the_delay (st : State) :
  reachable st →
  let st' := advance st 1000 in
  timers st' = ∅
  ∧ pendingBackups st' = ∅
  ∧ (∀ h tm, timers st !! h = Some tm → now st <= due tm →
       backupCalls (m_resource (t_model tm)) (calls st')
       = backupCalls (m_resource (t_model tm)) (calls st)
         ++ (if model_isDirty (services st) (t_model tm) then [due tm] else [])).
Proof.
  intros Hinv%reachable_inv st'.
  assert (timers st' = ∅) as Hempty.
  { apply map_eq. intros h. rewrite lookup_empty.
    destruct (timers st' !! h) as [tm|] eqn:Hh; [|done].
    apply advance_timers in Hh as [Hlive Hlate].
    apply (inv_due _ Hinv) in Hlive. unfold BACKUP_FROM_CONTENT_CHANGE_DELAY in Hlive. lia. }
  split; [done|]. split.
  - apply inv_no_timers; [|done].
    apply (inv_quiet_run st); [|done]. apply advance_quiet_run. lia.
  - intros h tm Hh Hnow. unfold st'.
    rewrite (advance_backup_when_due _ st 1000 h tm Hh eq_refl); [|
      |done].
    + rewrite decide_True; [done|].
      apply (inv_due _ Hinv) in Hh. unfold BACKUP_FROM_CONTENT_CHANGE_DELAY in Hh. lia.
    + intros h' tm' Hh' Hr'.
      apply (inv_timer _ Hinv) in Hh, Hh'. rewrite Hr', Hh in Hh'. congruence.
Qed.

End Drain.

(** The theorems in the state where [D] has changed for the second time. *)
Lemma X7_witness : size (pendingBackups Scenario.s2) = size (timers Scenario.s2).
Proof.
  apply (@X7_entries_and_timers_match vscode Scenario.s2). apply reachable_s2.
Defined.

Lemma X8_witness :
  timers (advance Scenario.s2 1000) = ∅
  ∧ pendingBackups (advance Scenario.s2 1000) = ∅.
Proof.
  destruct (@X8_pending_backups_drain_within_the_delay vscode Scenario.s2 reachable_s2)
    as (Ht & Hp & _).
  split; [exact Ht|exact Hp].
Defined.

(** ** Where the backup store is asked to discard *)

Section DiscardRequests.
Context `{Workbench}.

Lemma discardCalls_extends r st st' :
  extends (notDiscard r) st st' → discardCalls r (calls st') = discardCalls r (calls st).
Proof.
  intros (new & -> & Hall). rewrite discardCalls_app.
  assert (discardCalls r new = 0%nat) as ->; [|lia].
  unfold discardCalls. induction Hall as [|e l He _ IH]; [done|].
  by rewrite filter_cons, decide_False.
Qed.

Lemma backupModel_notDiscard r st model : extends (notDiscard r) st (backupModel st model).
Proof.
  rewrite backupModel_eq.
  destruct (model_isDirty (services st) model); [|apply clearRunning_extends].
  eapply extends_trans; [apply clearRunning_extends|].
  unfold scheduleNew, setTimeout. by apply (extends_call (notDiscard r)).
Qed.

Lemma fireTimer_notDiscard r st h : extends (notDiscard r) st (fireTimer st h).
Proof.
  destruct (timers st !! h) as [tm|] eqn:Hh.
  - eexists. split; [by apply fireTimer_calls|].
    destruct (model_isDirty (services st) (t_model tm)); by repeat constructor.
  - unfold fireTimer. rewrite Hh. by apply extends_refl.
Qed.

Lemma createOrGet_resolve_then_notDiscard r st r0 :
  extends (notDiscard r) st (createOrGet_resolve_then st r0).
Proof. unfold createOrGet_resolve_then. by apply (extends_call (notDiscard r)). Qed.

Lemma handler_discardCalls r st ev :
  discardCalls r (calls (handler st ev))
  = (discardCalls r (calls st) + (if decide (discardedBy ev = Some r) then 1 else 0))%nat.
Proof.
  assert (∀ r0, discardCalls r (calls (discardBackup st r0))
                = (discardCalls r (calls st)
                   + (if decide (Some r0 = Some r) then 1 else 0))%nat) as Hdiscard.
  { intros r0. case_decide as Heq.
    - injection Heq as ->. rewrite discardBackup_discardCalls. lia.
    - rewrite discardBackup_discardCalls_ne by congruence. lia. }
  destruct ev as [c|r0|r0|r0|r0|r0|c]; cbn [handler discardedBy]; try apply Hdiscard.
  - unfold onDidChangeWorkingCopyContent. destruct (wc_isDirty c); cbn [negb];
      [|apply Hdiscard].
    rewrite decide_False by done. rewrite Nat.add_0_r.
    apply discardCalls_extends.
    destruct (_ && _); [by apply extends_refl|].
    destruct (String.eqb _ _); [apply createOrGet_resolve_then_notDiscard|].
    cbn [services call].
    destruct (textFileService_models_get (services st) (wc_resource c)).
    + eapply extends_trans; [|apply backupModel_notDiscard].
      by apply (extends_call (notDiscard r)).
    + by apply (extends_call (notDiscard r)).
  - rewrite decide_False by done. rewrite Nat.add_0_r.
    apply discardCalls_extends. unfold onDidCreateUntitled.
    destruct (untitledTextEditorService_isDirty _ _);
      [apply createOrGet_resolve_then_notDiscard|by apply extends_refl].
  - rewrite decide_False by done. by rewrite Nat.add_0_r.
Qed.

(** X9.  The backup store is asked to discard the backup of a resource once
    for each save, revert, disposal or untitled disposal of that resource
    and once for each content change of a copy of it that is not dirty, and
    at no other time: not for another resource's event, not by a content
    change of a dirty copy, not when a backup is scheduled, a promise
    settles or a timer expires.  One turn of the event loop asks at most
    once. *)
Theorem X9_discard_requests_come_from_discard_events (st : State) (R : URI) :
  (∀ ev, discardCalls R (calls (handler st ev))
         = (discardCalls R (calls st)
            + (if decide (discardedBy ev = Some R) then 1 else 0))%nat)
  ∧ (∀ model, discardCalls R (calls (backupModel st model)) = discardCalls R (calls st))
  ∧ (∀ h, discardCalls R (calls (fireTimer st h)) = discardCalls R (calls st))
  ∧ (∀ i model, discardCalls R (calls (promiseResolved st i model))
                = discardCalls R (calls st))
  ∧ (∀ st', step st st' →
       (discardCalls R (calls st) ≤ discardCalls R (calls st')
        ≤ S (discardCalls R (calls st)))%nat).
Proof.
  split; [apply handler_discardCalls|].
  split; [intros model; apply discardCalls_extends, backupModel_notDiscard|].
  split; [intros h; apply discardCalls_extends, fireTimer_notDiscard|].
  assert (∀ i model, discardCalls R (calls (promiseResolved st i model))
                     = discardCalls R (calls st)) as Hres.
  { intros i model. unfold promiseResolved. destruct (resolving st !! i); [|done].
    apply (discardCalls_extends R (set_resolving (delete i (resolving st)) st)).
    apply backupModel_notDiscard. }
  split; [done|].
  intros st' Hstep.
  destruct Hstep as [st ev|st h tm Hh Hdue|st i model|st i|st d Hd|st svc|st];
    cbn [calls promiseRejected tick set_services Disposable_dispose set_resolving
         set_now set_store]; try lia.
  - unfold deliver. case_bool_decide; [|lia].
    rewrite handler_discardCalls. case_decide; lia.
  - rewrite (discardCalls_extends R st (fireTimer st h)); [lia|].
    apply fireTimer_notDiscard.
  - rewrite Hres. lia.
Qed.

End DiscardRequests.

(** The theorem at the change of a clean copy of [D] and at the expiry of
    [D]'s timer. *)
Lemma X9_witness :
  discardCalls Scenario.D
    (calls (@handler vscode Scenario.s1
              (workingCopyService_onDidChangeContent
                 (Scenario.clean Scenario.D Scenario.AutoSave)))) = 1%nat
  ∧ (discardCalls Scenario.D (calls (fireTimer (tick Scenario.s1 1000) 1)) ≤ 1)%nat.
Proof.
  destruct (@X9_discard_requests_come_from_discard_events vscode Scenario.s1 Scenario.D)
    as (Hev & _).
  destruct (@X9_discard_requests_come_from_discard_events vscode
              (tick Scenario.s1 1000) Scenario.D) as (_ & _ & _ & _ & Hstep).
  split.
  - rewrite Hev. vm_compute. reflexivity.
  - refine (proj2 (Hstep _ (step_timer _ 1%positive
                             {| due := 1000; t_model := Scenario.modelD |} _ _))).
    + vm_compute. reflexivity.
    + vm_compute. discriminate.
Defined.

(** ** From the change of a file to its backup *)

Section EndToEnd.
Context `{Workbench}.

Lemma backupModel_other st model :
  model_isDirty (services st) model = true →
  now (backupModel st model) = now st ∧ services (backupModel st model) = services st.
Proof.
  intros Hd. rewrite backupModel_eq, Hd. unfold scheduleNew, setTimeout.
  cbn [now services set_pendingBackups set_timers call].
  by destruct (clearRunning_other st (m_resource model)) as (_ & _ & -> & _ & _ & -> & _).
Qed.

(** [backup()] after [backupModel] on a dirty model, when the services have
    moved on to [svc] and timers expire on time. *)
Lemma backupModel_then_advance st model svc d :
  inv st → model_isDirty (services st) model = true →
  backupCalls (m_resource model)
    (calls (advance (set_services svc (backupModel st model)) d))
  = backupCalls (m_resource model) (calls st)
    ++ (if decide (1000 <= d)
        then if model_isDirty svc model then [now st + 1000] else []
        else []).
Proof.
  intros Hinv Hd.
  destruct (backupModel_schedules st model Hd) as (_ & Ht & _ & Hcalls).
  destruct (backupModel_liveTimersFor st model Hinv Hd) as (_ & Huniq).
  destruct (backupModel_other st model Hd) as (Hnow & _).
  rewrite (advance_backup_when_due (m_resource model)
             (set_services svc (backupModel st model)) d (nextHandle st) _ Ht eq_refl Huniq).
  - cbn [calls now services set_services due t_model]. rewrite Hnow, Hcalls, backupCalls_app.
    unfold backupCalls at 2. cbn. rewrite app_nil_r.
    unfold BACKUP_FROM_CONTENT_CHANGE_DELAY.
    destruct (decide (now st + 1000 <= now st + d)), (decide (1000 <= d)); (done || lia).
  - cbn [now set_services due]. rewrite Hnow. unfold BACKUP_FROM_CONTENT_CHANGE_DELAY. lia.
Qed.

(** X10.  From the event to the backup: the content of a dirty file whose
    model the text file service has changes while backups are not disabled
    for auto-saveables.  When the listener returns the backup of the model's
    resource is pending under a fresh handle, its timer, due 1000 later, the
    only live timer for that resource.  With nothing else happening and
    timers expiring on time, [backup()] has been called on the model once,
    1000 after the change, from then on and not before; and not at all if
    the model has stopped being dirty in the meantime. *)
Theorem X10_changed_file_is_backed_up_after_the_delay
    (st : State) (workingCopy : IWorkingCopy) (model : Model) :
  reachable st →
  onDidChangeContent ∈ _store st →
  wc_isDirty workingCopy = true →
  backupsDisabledForAutoSaveables st = false →
  scheme (wc_resource workingCopy) ≠ Schemas_untitled →
  textFileService_models_get (services st) (wc_resource workingCopy) = Some model →
  model_isDirty (services st) model = true →
  let R := m_resource model in
  let st' := deliver st (workingCopyService_onDidChangeContent workingCopy) in
  pendingBackups st' !! R = Some (toDisposable_clearTimeout (nextHandle st))
  ∧ liveTimersFor R st'
    = [(nextHandle st, {| due := now st + 1000; t_model := model |})]
  ∧ (∀ d, backupCalls R (calls (advance st' d))
          = backupCalls R (calls st) ++ (if decide (1000 <= d) then [now st + 1000] else []))
  ∧ (∀ d svc, model_isDirty svc model = false →
              backupCalls R (calls (advance (set_services svc st') d))
              = backupCalls R (calls st)).
Proof.
  intros Hinv%reachable_inv Hsub Hdirty Hflag Hscheme%String.eqb_neq Hget Hd R st'.
  subst R. set (st1 := call (textFileService_models_get_called (wc_resource workingCopy)) st).
  assert (st' = backupModel st1 model) as ->.
  { unfold st', deliver. rewrite bool_decide_eq_true_2 by done.
    cbn [handler]. unfold onDidChangeWorkingCopyContent.
    rewrite Hdirty, Hflag, Hscheme. cbn [negb andb services call]. by rewrite Hget. }
  assert (inv st1) as Hinv1 by (by apply inv_call).
  assert (model_isDirty (services st1) model = true) as Hd1 by done.
  assert (backupCalls (m_resource model) (calls st1)
          = backupCalls (m_resource model) (calls st)) as Hc1.
  { unfold st1. cbn [calls call]. rewrite backupCalls_app.
    unfold backupCalls at 2. cbn. by rewrite app_nil_r. }
  destruct (backupModel_schedules st1 model Hd1) as (Hp & _).
  destruct (backupModel_liveTimersFor st1 model Hinv1 Hd1) as (Hlive & _).
  split; [exact Hp|]. split; [exact Hlive|]. split.
  - intros d.
    pose proof (backupModel_then_advance st1 model (services st) d Hinv1 Hd1) as Hadv.
    rewrite Hd, Hc1 in Hadv.
    destruct (backupModel_other st1 model Hd1) as (_ & Hsvc).
    replace (set_services (services st) (backupModel st1 model))
      with (backupModel st1 model) in Hadv; [exact Hadv|].
    change (services st) with (services st1). rewrite <- Hsvc.
    by destruct (backupModel st1 model).
  - intros d svc Hclean.
    pose proof (backupModel_then_advance st1 model svc d Hinv1 Hd1) as Hadv.
    rewrite Hclean, Hc1 in Hadv. rewrite Hadv.
    case_decide; by rewrite app_nil_r.
Qed.

End EndToEnd.

(** The theorem at the first change of [D], in the new tracker. *)
Lemma X10_witness :
  let st' := @deliver vscode Scenario.s0 (Scenario.change Scenario.D Scenario.AutoSave) in
  backupCalls Scenario.D (calls (advance st' 999)) = []
  ∧ backupCalls Scenario.D (calls (advance st' 1000)) = [1000]
  ∧ backupCalls Scenario.D (calls (advance (set_services Scenario.allSaved st') 1000)) = [].
Proof.
  intros st'.
  destruct (@X10_changed_file_is_backed_up_after_the_delay vscode Scenario.s0
              (Scenario.dirty Scenario.D Scenario.AutoSave) Scenario.modelD)
    as (_ & _ & Hadv & Hsaved).
  - apply reachable_new.
  - vm_compute. repeat constructor.
  - reflexivity.
  - reflexivity.
  - discriminate.
  - reflexivity.
  - reflexivity.
  - split; [exact (Hadv 999)|]. split; [exact (Hadv 1000)|].
    apply (Hsaved 1000 Scenario.allSaved). reflexivity.
Defined.

(** ** The life of the subscriptions, and what discarding cannot reach *)

Section Lifecycle.
Context `{Workbench}.

Lemma clearRunning_store st r : _store (clearRunning st r) = _store st.
Proof. by destruct (clearRunning_other st r) as (_ & -> & _). Qed.

Lemma backupModel_store st model : _store (backupModel st model) = _store st.
Proof.
  rewrite backupModel_eq. destruct (model_isDirty (services st) model).
  - unfold scheduleNew, setTimeout. cbn [_store set_pendingBackups set_timers call].
    apply clearRunning_store.
  - apply clearRunning_store.
Qed.

Lemma discardBackup_store st r : _store (discardBackup st r) = _store st.
Proof. rewrite discardBackup_eq. cbn [_store call]. by rewrite clearRunning_store. Qed.

Lemma handler_store st ev : _store (handler st ev) = _store st.
Proof.
  destruct ev as [c|r|r|r|r|r|c]; cbn [handler]; try apply discardBackup_store; [| |done].
  - unfold onDidChangeWorkingCopyContent.
    destruct (negb _); [apply discardBackup_store|].
    destruct (_ && _); [done|]. destruct (String.eqb _ _); [done|]. cbn [services call].
    destruct (textFileService_models_get _ _); [|done]. by rewrite backupModel_store.
  - unfold onDidCreateUntitled. by destruct (untitledTextEditorService_isDirty _ _).
Qed.

Lemma fireTimer_store st h : _store (fireTimer st h) = _store st.
Proof.
  unfold fireTimer, backupModel_timeout. destruct (timers st !! h) as [tm|]; [|done].
  cbn. by destruct (model_isDirty (services st) (t_model tm)).
Qed.

Lemma step_store st st' : step st st' → _store st' = _store st ∨ _store st' = [].
Proof.
  destruct 1 as [st ev|st h tm Hh Hdue|st i model|st i|st d Hd|st svc|st];
    try (by left); try (by right).
  - left. unfold deliver. case_bool_decide; [apply handler_store|done].
  - left. apply fireTimer_store.
  - left. unfold promiseResolved. destruct (resolving st !! i); [|done].
    by rewrite backupModel_store.
Qed.

(** X11.  The constructor subscribes to all seven sources and does nothing
    else: the new tracker has no entry, no timer, no promise pending and has
    made no call - models that are dirty at that time are not backed up
    until their content changes.  From then on the tracker is subscribed to
    all seven sources or, once disposed of, to none: an event reaches its
    listener in every state before teardown, and in no state after. *)
Theorem X11_subscribed_to_all_or_none (st : State) :
  reachable st →
  ((_store st = allListeners ∧ ∀ ev, deliver st ev = handler st ev)
   ∨ (_store st = [] ∧ ∀ ev, deliver st ev = st))
  ∧ (∀ svc t0,
       let st0 := BackupTracker_new svc t0 in
       _store st0 = allListeners
       ∧ pendingBackups st0 = ∅ ∧ timers st0 = ∅ ∧ resolving st0 = [] ∧ calls st0 = []
       ∧ services st0 = svc ∧ now st0 = t0).
Proof.
  intros Hreach. split; [|done].
  assert (_store st = allListeners ∨ _store st = []) as [Hs|Hs].
  { induction Hreach as [svc t0|st st' Hreach IH Hstep]; [by left|].
    destruct (step_store _ _ Hstep) as [-> | ->]; [done|by right]. }
  - left. split; [done|]. intros ev. unfold deliver. rewrite Hs.
    rewrite bool_decide_eq_true_2; [done|].
    destruct ev; unfold allListeners; cbn [listener_of]; set_solver.
  - right. split; [done|]. intros ev. unfold deliver. rewrite Hs.
    rewrite bool_decide_eq_false_2; [done|]. apply not_elem_of_nil.
Qed.

(** X12.  [discardBackup] does not reach a model that is still being
    resolved: the pending promises are after it what they were before.  If
    the untitled document is discarded while its model is being resolved,
    the continuation still runs [backupModel] when the promise is fulfilled
    and, the model being dirty, a backup of the discarded resource is
    scheduled again. *)
Theorem X12_discard_does_not_cancel_a_resolution (st : State) (R : URI) :
  resolving (discardBackup st R) = resolving st
  ∧ ∀ i r model,
      resolving st !! i = Some r →
      model_isDirty (services st) model = true →
      let st' := promiseResolved (discardBackup st R) i model in
      pendingBackups st' !! m_resource model
        = Some (toDisposable_clearTimeout (nextHandle st))
      ∧ timers st' !! nextHandle st
        = Some {| due := now st + BACKUP_FROM_CONTENT_CHANGE_DELAY; t_model := model |}.
Proof.
  assert (resolving (discardBackup st R) = resolving st
          ∧ nextHandle (discardBackup st R) = nextHandle st
          ∧ now (discardBackup st R) = now st
          ∧ services (discardBackup st R) = services st) as (Hres & Hnext & Hnow & Hsvc).
  { rewrite discardBackup_eq. cbn [resolving nextHandle now services call].
    by destruct (clearRunning_other
                   (call (logService_trace "[backup tracker] discarding backup" R) st) R)
      as (_ & _ & -> & -> & -> & -> & _). }
  split; [done|]. intros i r model Hi Hd st'. subst st'.
  unfold promiseResolved. rewrite Hres, Hi.
  destruct (backupModel_schedules
              (set_resolving (delete i (resolving st)) (discardBackup st R)) model)
    as (Hp & Ht & _).
  { cbn [services set_resolving]. by rewrite Hsvc. }
  cbn [nextHandle now set_resolving] in Hp, Ht. rewrite Hnext in Hp, Ht.
  rewrite Hnow in Ht. done.
Qed.

(** X13.  Setting the flag stops no backup that is already pending:
    [onAutoSaveConfigurationChange] leaves [pendingBackups] and the timers as
    they are, and a timer that expires after it does what it would have
    done before it - [backup()] is called on a dirty model all the same. *)
Theorem X13_configuration_change_keeps_pending_backups
    (st : State) (configuration : IAutoSaveConfiguration) :
  let st' := onAutoSaveConfigurationChange st configuration in
  pendingBackups st' = pendingBackups st
  ∧ timers st' = timers st
  ∧ (∀ h, fireTimer st' h = onAutoSaveConfigurationChange (fireTimer st h) configuration)
  ∧ (∀ h, calls (fireTimer st' h) = calls (fireTimer st h))
  ∧ (∀ d R, backupCalls R (calls (advance st' d)) = backupCalls R (calls (advance st d))).
Proof.
  cbv zeta.
  assert (∀ s h, fireTimer (onAutoSaveConfigurationChange s configuration) h
                 = onAutoSaveConfigurationChange (fireTimer s h) configuration) as Hfire.
  { intros s h. unfold fireTimer, onAutoSaveConfigurationChange.
    cbn [timers set_backupsDisabledForAutoSaveables].
    destruct (timers s !! h) as [tm|]; [|done].
    unfold backupModel_timeout. cbn.
    by destruct (model_isDirty (services s) (t_model tm)). }
  split; [done|]. split; [done|]. split; [apply Hfire|]. split.
  - intros h. by rewrite Hfire.
  - intros d R. unfold advance. cbn [calls set_now now].
    change (now (onAutoSaveConfigurationChange st configuration)) with (now st).
    assert (dueTimers (now st + d) (onAutoSaveConfigurationChange st configuration)
            = dueTimers (now st + d) st) as -> by done.
    generalize (dueTimers (now st + d) st). intros l.
    assert (∀ s, foldl expire (onAutoSaveConfigurationChange s configuration) l
                 = onAutoSaveConfigurationChange (foldl expire s l) configuration) as Hfold.
    { induction l as [|e l IH]; intros s; [done|]. cbn [foldl]. rewrite <- IH. f_equal.
      unfold expire. by rewrite <- Hfire. }
    by rewrite Hfold.
Qed.

End Lifecycle.

(** The theorems in the scenario. *)
Lemma X11_witness :
  @deliver vscode Scenario.s2 (textFileService_models_onModelSaved Scenario.D)
  = @handler vscode Scenario.s2 (textFileService_models_onModelSaved Scenario.D).
Proof.
  destruct (@X11_subscribed_to_all_or_none vscode Scenario.s2 reachable_s2)
    as [[(_ & Hall)|(Hnone & _)] _]; [apply Hall|].
  vm_compute in Hnone. discriminate.
Defined.

Lemma X12_witness :
  let st := onDidCreateUntitled Scenario.s1 Scenario.U in
  timers (promiseResolved (discardBackup st Scenario.U) 0 Scenario.modelU) !! 2%positive
  = Some {| due := 1000; t_model := Scenario.modelU |}.
Proof.
  intros st.
  destruct (X12_discard_does_not_cancel_a_resolution st Scenario.U) as (_ & Hres).
  destruct (Hres 0%nat Scenario.U Scenario.modelU) as (_ & Ht);
    [reflexivity|reflexivity|exact Ht].
Defined.
